(** * LexLearner: the OpenStates bill search client and its static predecessor

    A shallow embedding of [search_bill_openstates] (the OpenStates v3
    client) and of [search_bill] (the hard-coded version 1 catalogue),
    with the properties of their specification.

    Conventions of the embedding.
    - A value produced by [response.json()] is a [json]: the Python object
      the body parses to.  A JSON object is an association list in which
      the first binding of a key is the binding of that key in the dict.
    - A Python exception is a value of [exn]; code that can raise returns
      [exn + A].  The [except] clauses are tried in source order with
      [isinstance], which encodes the class hierarchy of [requests].
    - The network and the terminal are explicit state: the requests sent so
      far, the lines printed so far.  The two locals the handlers read
      ([response], [data]) live in the same state, unbound until assigned.
    - An f-string is kept as the list of its pieces: literal text is
      concatenated as in the source, an interpolated object that is not a
      [str] stays symbolic.
    - [str] is modelled by [string] over ASCII; [lower] and [upper] change
      the case of the letters A-Z and a-z. *)

From Stdlib Require Import String Ascii List ZArith QArith Bool Lia.
Import ListNotations.
Set Warnings "-register-all".
Local Open Scope Z_scope.
Local Open Scope string_scope.
Local Open Scope list_scope.

(* ================================================================= *)
(** ** Python values, exceptions and the operations the client uses *)

Module Py.

Inductive json : Type :=
| JNull
| JBool (b : bool)
| JNum (q : Q)
| JStr (s : string)
| JArr (xs : list json)
| JObj (kvs : list (string * json)).

(** The key a [KeyError] reports. *)
Inductive lookup_key : Type :=
| KStr (s : string)
| KInt (z : Z).

Inductive exn : Type :=
| HTTPError (status_code : Z)
| ConnectionError
| ConnectTimeout
| ReadTimeout
| TooManyRedirects
| JSONDecodeError
| KeyError (k : lookup_key)
| IndexError
| TypeError
| AttributeError
| UnboundLocalError (name : string).

(** The classes named by the [except] clauses of the client. *)
Inductive exn_class : Type :=
| CHTTPError
| CConnectionError
| CTimeout
| CRequestException
| CKeyError
| CException.

(** [requests.exceptions]: [HTTPError], [ConnectionError], [Timeout],
    [TooManyRedirects] and [JSONDecodeError] derive from
    [RequestException]; [ConnectTimeout] derives from both
    [ConnectionError] and [Timeout]; [ReadTimeout] from [Timeout]. *)
Definition isinstance (e : exn) (c : exn_class) : bool :=
  match c, e with
  | CException, _ => true
  | CHTTPError, HTTPError _ => true
  | CConnectionError, (ConnectionError | ConnectTimeout) => true
  | CTimeout, (ConnectTimeout | ReadTimeout) => true
  | CRequestException,
    (HTTPError _ | ConnectionError | ConnectTimeout | ReadTimeout
     | TooManyRedirects | JSONDecodeError) => true
  | CKeyError, KeyError _ => true
  | _, _ => false
  end.

(** The error monad of code that can raise. *)
Definition bindE {A B : Type} (c : exn + A) (k : A -> exn + B) : exn + B :=
  match c with
  | inl e => inl e
  | inr a => k a
  end.

Declare Scope err_scope.
Delimit Scope err_scope with err.
Notation "x <- c ;; k" := (bindE c (fun x => k))
  (at level 61, c at next level, right associativity) : err_scope.

(** [bool(x)]. *)
Definition truthy (x : json) : bool :=
  match x with
  | JNull => false
  | JBool b => b
  | JNum q => negb (Z.eqb (Qnum q) 0)
  | JStr s => negb (String.eqb s "")
  | JArr xs => match xs with [] => false | _ :: _ => true end
  | JObj kvs => match kvs with [] => false | _ :: _ => true end
  end.

Fixpoint assoc (k : string) (kvs : list (string * json)) : option json :=
  match kvs with
  | [] => None
  | (k', v) :: rest => if String.eqb k k' then Some v else assoc k rest
  end.

(** [d.get(k, default)]: only a dict has [get]. *)
Definition get (d : json) (k : string) (default : json) : exn + json :=
  match d with
  | JObj kvs => inr (match assoc k kvs with Some v => v | None => default end)
  | _ => inl AttributeError
  end.

(** [d[k]] for a [str] key. *)
Definition getitem (d : json) (k : string) : exn + json :=
  match d with
  | JObj kvs =>
      match assoc k kvs with
      | Some v => inr v
      | None => inl (KeyError (KStr k))
      end
  | _ => inl TypeError
  end.

Fixpoint chars (s : string) : list json :=
  match s with
  | EmptyString => []
  | String c rest => JStr (String c EmptyString) :: chars rest
  end.

(** [x[-1]]. *)
Definition last_item (x : json) : exn + json :=
  match x with
  | JArr xs =>
      match rev xs with
      | [] => inl IndexError
      | y :: _ => inr y
      end
  | JStr s =>
      match rev (chars s) with
      | [] => inl IndexError
      | y :: _ => inr y
      end
  | JObj _ => inl (KeyError (KInt (-1)))
  | _ => inl TypeError
  end.

(** The elements a [for] loop or a comprehension visits. *)
Definition iter (x : json) : exn + list json :=
  match x with
  | JArr xs => inr xs
  | JObj kvs => inr (map JStr (nodup string_dec (map fst kvs)))
  | JStr s => inr (chars s)
  | _ => inl TypeError
  end.

Fixpoint intercalate (sep : string) (xs : list string) : string :=
  match xs with
  | [] => ""
  | [x] => x
  | x :: rest => x ++ sep ++ intercalate sep rest
  end.

Fixpoint strs (xs : list json) : exn + list string :=
  match xs with
  | [] => inr []
  | JStr s :: rest => (ss <- strs rest ;; inr (s :: ss))%err
  | _ :: _ => inl TypeError
  end.

(** [sep.join(xs)]: every item must be a [str]. *)
Definition join (sep : string) (xs : list json) : exn + string :=
  (ss <- strs xs ;; inr (intercalate sep ss))%err.

Definition lower_ascii (c : ascii) : ascii :=
  let n := nat_of_ascii c in
  if (Nat.leb 65 n && Nat.leb n 90) then ascii_of_nat (Nat.add n 32) else c.

Definition upper_ascii (c : ascii) : ascii :=
  let n := nat_of_ascii c in
  if (Nat.leb 97 n && Nat.leb n 122) then ascii_of_nat (Nat.sub n 32) else c.

Fixpoint smap (f : ascii -> ascii) (s : string) : string :=
  match s with
  | EmptyString => EmptyString
  | String c rest => String (f c) (smap f rest)
  end.

(** [s.lower()] and [s.upper()]. *)
Definition lower : string -> string := smap lower_ascii.
Definition upper : string -> string := smap upper_ascii.

(** [needle in hay] on strings. *)
Fixpoint contains (needle hay : string) : bool :=
  String.prefix needle hay
  || match hay with
     | EmptyString => false
     | String _ rest => contains needle rest
     end.

End Py.

(* ================================================================= *)
(** ** The OpenStates client: [search_bill_openstates] *)

Module OpenStates.
Import Py.

(** Base URL for the OpenStates v3 API. *)
Definition OPENSTATES_BASE_URL : string := "https://v3.openstates.org".

(** A piece of an f-string: literal text, or an interpolated object. *)
Inductive piece : Type :=
| Lit (s : string)
| Val (v : json)
| Num (z : Z)
| Err (e : exn).

Definition fstring : Type := list piece.

Inductive param : Type :=
| PStr (s : string)
| PInt (z : Z).

(** The arguments of one [requests.get]. *)
Record request : Type := mkRequest {
  url : fstring;
  headers : list (string * string);
  params : list (string * param)
}.

Record http_response : Type := mkResponse {
  status_code : Z;
  body : option json   (* [None]: the body is not JSON *)
}.

(** What [requests.get] itself can raise: a failure to connect, a timeout
    while connecting or while reading, or another [RequestException] such
    as [TooManyRedirects].  An [HTTPError] is raised by
    [raise_for_status] only. *)
Inductive transport_error : Type :=
| NoConnection
| ConnectTimedOut
| ReadTimedOut
| OtherTransport.

Definition exn_of_transport (t : transport_error) : exn :=
  match t with
  | NoConnection => ConnectionError
  | ConnectTimedOut => ConnectTimeout
  | ReadTimedOut => ReadTimeout
  | OtherTransport => TooManyRedirects
  end.

Inductive http_outcome : Type :=
| Responded (r : http_response)
| Failed (t : transport_error).

(** The remote side: the outcome of a request, given the requests that
    were sent before it (oldest first). *)
Definition server : Type := list request -> request -> http_outcome.

(** The formatted bill of lines 90-98. *)
Record bill_record : Type := mkBill {
  identifier : json;
  title : json;
  status : json;
  subjects : json;
  abstract : json;
  openstates_url : json;
  classification : json
}.

Record state : Type := mkState {
  sent : list request;              (* requests issued, oldest first *)
  stdout : list fstring;            (* lines printed, oldest first *)
  response : option http_response;  (* the local [response] *)
  data : option json                (* the local [data] *)
}.

Definition init : state :=
  {| sent := []; stdout := []; response := None; data := None |}.

(** Stateful code that can raise. *)
Definition M (A : Type) : Type := state -> (exn + A) * state.

Definition ret {A : Type} (a : A) : M A := fun st => (inr a, st).

Definition raise {A : Type} (e : exn) : M A := fun st => (inl e, st).

Definition bind {A B : Type} (c : M A) (k : A -> M B) : M B :=
  fun st =>
    match c st with
    | (inl e, st') => (inl e, st')
    | (inr a, st') => k a st'
    end.

Declare Scope io_scope.
Delimit Scope io_scope with io.
Notation "x <- c ;; k" := (bind c (fun x => k))
  (at level 61, c at next level, right associativity) : io_scope.
Notation "c ;;; k" := (bind c (fun _ => k))
  (at level 61, right associativity) : io_scope.

Definition lift {A : Type} (c : exn + A) : M A := fun st => (c, st).

(** [try: body except ...: handler]: the handler runs in the state the
    body had reached when it raised. *)
Definition try_except {A : Type} (body : M A) (handler : exn -> M A) : M A :=
  fun st =>
    match body st with
    | (inl e, st') => handler e st'
    | (inr a, st') => (inr a, st')
    end.

Definition print (line : fstring) : M unit :=
  fun st =>
    (inr tt,
     {| sent := sent st; stdout := stdout st ++ [line];
        response := response st; data := data st |}).

Definition set_response (r : http_response) : M unit :=
  fun st =>
    (inr tt,
     {| sent := sent st; stdout := stdout st;
        response := Some r; data := data st |}).

Definition set_data (d : json) : M unit :=
  fun st =>
    (inr tt,
     {| sent := sent st; stdout := stdout st;
        response := response st; data := Some d |}).

(** Reading a local that was never assigned raises. *)
Definition get_response : M http_response :=
  fun st =>
    match response st with
    | Some r => (inr r, st)
    | None => (inl (UnboundLocalError "response"), st)
    end.

Definition get_data : M json :=
  fun st =>
    match data st with
    | Some d => (inr d, st)
    | None => (inl (UnboundLocalError "data"), st)
    end.

(** [r.raise_for_status()]. *)
Definition raise_for_status (r : http_response) : M unit :=
  if ((400 <=? status_code r) && (status_code r <? 600))%Z
  then raise (HTTPError (status_code r))
  else ret tt.

(** [r.json()]. *)
Definition json_of (r : http_response) : M json :=
  match body r with
  | Some v => ret v
  | None => raise JSONDecodeError
  end.

(** Lines 82 and 94: the names kept by the comprehension. *)
Fixpoint subject_names (items : list json) : exn + list json :=
  match items with
  | [] => inr []
  | s :: rest =>
      (c <- get s "name" JNull ;;
       if truthy c
       then (n <- get s "name" (JStr "") ;;
             ns <- subject_names rest ;;
             inr (n :: ns))
       else subject_names rest)%err
  end.

(** Lines 71-98: the record built from one detail response. *)
Definition format_bill (detail_data : json) : exn + bill_record :=
  (title <- get detail_data "title" (JStr "N/A") ;;
   identifier <- get detail_data "identifier" (JStr "N/A") ;;
   actions <- get detail_data "actions" (JArr []) ;;
   latest_action_text <-
     (if truthy actions
      then (latest <- last_item actions ;;
            get latest "description" (JStr "No description."))
      else inr (JStr "No recent action found.")) ;;
   subjects_src <- get detail_data "subjects" (JArr []) ;;
   items <- iter subjects_src ;;
   subjects <- subject_names items ;;
   abstract_text <- get detail_data "abstract" (JStr "No abstract available.") ;;
   openstates_url <- get detail_data "openstates_url" (JStr "No URL available.") ;;
   classification <- get detail_data "classification" (JStr "N/A") ;;
   subjects_text <-
     (match subjects with
      | [] => inr "N/A"
      | _ :: _ => join ", " subjects
      end) ;;
   inr {| identifier := identifier;
          title := title;
          status := latest_action_text;
          subjects := JStr subjects_text;
          abstract := abstract_text;
          openstates_url := openstates_url;
          classification := classification |})%err.

Section Client.

(** The key imported from [keys.py]. *)
Variable OPENSTATES_API_KEY : string.
Variable srv : server.

(** [requests.get(url, headers=..., params=...)]. *)
Definition requests_get (rq : request) : M http_response :=
  fun st =>
    let st' := {| sent := sent st ++ [rq]; stdout := stdout st;
                  response := response st; data := data st |} in
    match srv (sent st) rq with
    | Responded r => (inr r, st')
    | Failed t => (inl (exn_of_transport t), st')
    end.

Definition api_headers : list (string * string) :=
  [("X-API-KEY", OPENSTATES_API_KEY)].

Definition search_request (keyword jurisdiction session : string) (limit : Z)
  : request :=
  {| url := [Lit (OPENSTATES_BASE_URL ++ "/bills")];
     headers := api_headers;
     params := [("q", PStr keyword);
                ("jurisdiction", PStr (lower jurisdiction));
                ("session", PStr session);
                ("classification", PStr "bill");
                ("sort", PStr "latest_action_desc");
                ("page", PInt 1);
                ("per_page", PInt limit)] |}.

Definition detail_request (bill_id : json) : request :=
  {| url := [Lit (OPENSTATES_BASE_URL ++ "/bills/"); Val bill_id];
     headers := api_headers;
     params := [] |}.

(** Lines 63-98: the body of the loop for one bill. *)
Definition fetch_bill (bill : json) : M bill_record :=
  (bill_id <- lift (getitem bill "id") ;;
   detail_resp <- requests_get (detail_request bill_id) ;;
   raise_for_status detail_resp ;;;
   detail_data <- json_of detail_resp ;;
   lift (format_bill detail_data))%io.

(** Lines 59-99: [for i, bill in enumerate(bills_found)], then the
    [return formatted_results] that follows the loop. *)
Fixpoint fetch_details (limit : Z) (i : Z) (bills : list json)
    (formatted_results : list bill_record) : M (list bill_record) :=
  match bills with
  | [] => ret formatted_results
  | bill :: rest =>
      if (limit <=? i)%Z
      then ret formatted_results
      else (r <- fetch_bill bill ;;
            fetch_details limit (i + 1) rest (formatted_results ++ [r]))%io
  end.

Definition msg_no_initial (keyword jurisdiction : string) : fstring :=
  [Lit ("No initial bills found for '" ++ keyword ++ "' in "
        ++ upper jurisdiction ++ ".")].

(** Lines 46-99: the body of the [try]. *)
Definition try_block (keyword jurisdiction session : string) (limit : Z)
  : M (list bill_record) :=
  (response <- requests_get (search_request keyword jurisdiction session limit) ;;
   set_response response ;;;
   raise_for_status response ;;;
   data <- json_of response ;;
   set_data data ;;;
   bills_found <- lift (get data "results" (JArr [])) ;;
   if negb (truthy bills_found)
   then print (msg_no_initial keyword jurisdiction) ;;; ret []
   else bills <- lift (iter bills_found) ;;
        fetch_details limit 0 bills [])%io.

Definition msg_auth_hint : fstring :=
  [Lit "Please check if your OpenStates API key is correct and valid."].

(** Lines 101-123: the [except] clauses, in source order. *)
Definition handlers (e : exn) : M (list bill_record) :=
  (if isinstance e CHTTPError then
     response <- get_response ;;
     print [Lit "HTTP error occurred: "; Err e; Lit " (Status code: ";
            Num (status_code response); Lit ")"] ;;;
     (if ((status_code response =? 401) || (status_code response =? 403))%Z
      then print msg_auth_hint
      else ret tt) ;;;
     ret []
   else if isinstance e CConnectionError then
     print [Lit "Connection error occurred: "; Err e] ;;;
     print [Lit "Please check your internet connection."] ;;;
     ret []
   else if isinstance e CTimeout then
     print [Lit "Timeout error occurred: "; Err e] ;;;
     print [Lit "The API server took too long to respond."] ;;;
     ret []
   else if isinstance e CRequestException then
     print [Lit "An unexpected request error occurred: "; Err e] ;;;
     ret []
   else if isinstance e CKeyError then
     print [Lit "Error parsing API response. Missing expected key: "; Err e] ;;;
     data <- get_data ;;
     print [Lit "Partial data for debugging: "; Val data] ;;;
     ret []
   else if isinstance e CException then
     print [Lit "An unknown error occurred: "; Err e] ;;;
     ret []
   else raise e)%io.

Definition msg_searching (keyword jurisdiction session : string) : fstring :=
  [Lit ("Searching for bills with keyword: '" ++ keyword ++ "' in "
        ++ upper jurisdiction ++ " (Session: " ++ session
        ++ ") using OpenStates API...")].

(** Lines 10-123.  A result [inl e] means that the exception [e] reaches
    the caller. *)
Definition search_bill_openstates
    (keyword jurisdiction session : string) (limit : Z)
  : M (list bill_record) :=
  (print (msg_searching keyword jurisdiction session) ;;;
   try_except (try_block keyword jurisdiction session limit) handlers)%io.

End Client.

(** The defaults of the signature. *)
Definition default_jurisdiction : string := "ga".
Definition default_session : string := "current".
Definition default_limit : Z := 20.

(** Recognises a request for the detail of a bill. *)
Definition is_detail (rq : request) : bool :=
  match url rq with
  | [Lit _; Val _] => true
  | _ => false
  end.

(** Recognises the hint about the API key of line 104. *)
Definition is_auth_hint (line : fstring) : bool :=
  match line with
  | [Lit s] =>
      String.eqb s "Please check if your OpenStates API key is correct and valid."
  | _ => false
  end.

End OpenStates.

(* ================================================================= *)
(** ** The static catalogue of version 1: [search_bill] *)

Module Legacy.
Import Py.

Record bill : Type := mkBill {
  title : string;
  status : string;
  bill_id : string
}.

(** What a call leaves behind: the lines it printed and its result. *)
Record run : Type := mkRun {
  printed : list string;
  returned : list bill
}.

Definition climate_bills : list bill :=
  [ {| title := "Clean Air Act Amendment of 2025";
       status := "Passed House, Awaiting Senate Vote";
       bill_id := "hr3684" |};
    {| title := "Climate Change Mitigation Bill";
       status := "Introduced";
       bill_id := "s1234" |} ].

Definition education_bills : list bill :=
  [ {| title := "Student Loan Forgiveness Act";
       status := "In Committee";
       bill_id := "hr5678" |} ].

Definition search_bill (keyword : string) : run :=
  {| printed :=
       [("Searching for bills with the keyword: '" ++ keyword ++ "'...")%string];
     returned :=
       if contains "climate" (lower keyword) then climate_bills
       else if contains "education" (lower keyword) then education_bills
       else [] |}.

End Legacy.

(* ================================================================= *)
(** ** Vocabulary of the properties *)

Module Spec.
Import Py OpenStates.

(** [needle] occurs in [hay]. *)
Definition Substring (needle hay : string) : Prop :=
  exists pre post : string, hay = (pre ++ needle ++ post)%string.

(** The names a reader of a [subjects] array would call non-empty: the
    [name] of every entry that has one which is a non-empty string, in
    the order of the array. *)
Fixpoint nonempty_names (entries : list json) : list string :=
  match entries with
  | [] => []
  | JObj kvs :: rest =>
      match assoc "name" kvs with
      | Some (JStr (String c s)) => String c s :: nonempty_names rest
      | _ => nonempty_names rest
      end
  | _ :: rest => nonempty_names rest
  end.

(** An entry of [subjects] whose name is missing or empty. *)
Definition unnamed (entry : json) : Prop :=
  exists ekvs,
    entry = JObj ekvs /\
    (assoc "name" ekvs = None \/ assoc "name" ekvs = Some (JStr "")).

(** An entry of [subjects] as the API documents it: an object whose
    [name], when present, is a string. *)
Definition subject_entry (entry : json) : Prop :=
  exists ekvs,
    entry = JObj ekvs /\
    (assoc "name" ekvs = None \/ exists s, assoc "name" ekvs = Some (JStr s)).

(** A detail response as the API documents it, as far as [actions] and
    [subjects] go: each is absent or an array, the last action is an
    object, the subjects are subject entries. *)
Definition documented_detail (kvs : list (string * json)) : Prop :=
  (assoc "actions" kvs = None \/
   assoc "actions" kvs = Some (JArr []) \/
   exists acts lkvs, assoc "actions" kvs = Some (JArr (acts ++ [JObj lkvs])))
  /\
  (assoc "subjects" kvs = None \/
   exists entries,
     assoc "subjects" kvs = Some (JArr entries) /\
     Forall subject_entry entries).

(** The outcomes the server gives to [rqs], sent one after the other
    after the requests of [hist]. *)
Fixpoint answers (srv : server) (hist rqs : list request)
  : list http_outcome :=
  match rqs with
  | [] => []
  | rq :: rest => srv hist rq :: answers srv (hist ++ [rq]) rest
  end.

(** A response that [raise_for_status] lets through. *)
Definition passes (r : http_response) : Prop :=
  ((400 <=? status_code r) && (status_code r <? 600))%Z = false.

(** The outcome [out] is a response that passes, parses, and formats to
    the record [rec]. *)
Definition formats_to (out : http_outcome) (rec : bill_record) : Prop :=
  exists r d,
    out = Responded r /\ passes r /\ body r = Some d /\
    format_bill d = inr rec.

(** The state in which the [try] block starts. *)
Definition entered (keyword jurisdiction session : string) : state :=
  {| sent := [];
     stdout := [msg_searching keyword jurisdiction session];
     response := None;
     data := None |}.

(** The state in which the loop over the bills starts: the list search
    was answered by [r], whose body parsed to [d]. *)
Definition loop_entry (key keyword jurisdiction session : string)
    (limit : Z) (r : http_response) (d : json) : state :=
  {| sent := [search_request key keyword jurisdiction session limit];
     stdout := [msg_searching keyword jurisdiction session];
     response := Some r;
     data := Some d |}.

(** A line printed by one of the [except] clauses. *)
Definition is_error_line (line : fstring) : bool :=
  match line with
  | [Lit _; Err _] => true
  | [Lit _; Err _; Lit _; Num _; Lit _] => true
  | _ => false
  end.

End Spec.

(* ================================================================= *)
(** ** Servers and responses used as concrete scenarios *)

Module Scenario.
Import Py OpenStates.

Definition ok (v : json) : http_outcome :=
  Responded {| status_code := 200; body := Some v |}.

Definition refused (code : Z) : http_outcome :=
  Responded {| status_code := code; body := None |}.

Definition bill_ref (id : string) : json := JObj [("id", JStr id)].

Definition two_bills : json :=
  JObj [("results", JArr [bill_ref "ocd-bill/1"; bill_ref "ocd-bill/2"])].

Definition three_bills : json :=
  JObj [("results",
         JArr [bill_ref "ocd-bill/1"; bill_ref "ocd-bill/2";
               bill_ref "ocd-bill/3"])].

(** A detail response with two actions and four subject entries, two of
    which carry a name. *)
Definition loans_fields : list (string * json) :=
  [("identifier", JStr "HB 1");
   ("title", JStr "Student loans");
   ("actions", JArr [JObj [("description", JStr "Introduced")];
                     JObj [("description", JStr "Referred to committee")]]);
   ("subjects", JArr [JObj [("name", JStr "Education")];
                      JObj [("name", JStr "")];
                      JObj [];
                      JObj [("name", JStr "Finance")]]);
   ("abstract", JStr "Reforms student loans. Adds oversight.")].

Definition loans_detail : json := JObj loans_fields.

Definition undescribed_fields : list (string * json) :=
  [("identifier", JStr "HB 2");
   ("actions", JArr [JObj [("description", JStr "Introduced")];
                     JObj [("date", JStr "2025-01-02")]])].

Definition undescribed_detail : json := JObj undescribed_fields.

Definition bare_detail : json := JObj [("identifier", JStr "HB 3")].

Definition unnamed_subjects_detail : json :=
  JObj [("subjects", JArr [JObj [("name", JStr "")]; JObj []])].

(** The list search finds two bills; every detail request is refused
    with 401. *)
Definition srv_detail_401 : server :=
  fun hist _ =>
    match hist with
    | [] => ok two_bills
    | _ :: _ => refused 401
    end.

(** The list search itself is refused with 403. *)
Definition srv_search_403 : server := fun _ _ => refused 403.

(** The first detail request succeeds, the second one fails with 500. *)
Definition srv_second_detail_500 : server :=
  fun hist _ =>
    match hist with
    | [] => ok two_bills
    | [_] => ok loans_detail
    | _ => refused 500
    end.

(** Three bills are found; the detail of a bill echoes the requested id
    as its identifier. *)
Definition srv_echo : server :=
  fun hist rq =>
    match hist, url rq with
    | [], _ => ok three_bills
    | _ :: _, [Lit _; Val id] => ok (JObj [("identifier", id)])
    | _ :: _, _ => refused 404
    end.

Definition srv_no_results : server :=
  fun _ _ => ok (JObj [("results", JArr [])]).

Definition srv_timeout : server := fun _ _ => Failed ReadTimedOut.

End Scenario.

(* ================================================================= *)
(** ** The [str] methods of the command-line front ends *)

Module Str.
Import Py.

(** [c.isspace()] on ASCII: tab to carriage return, the four separators
    28-31, and the space. *)
Definition isspace (c : ascii) : bool :=
  let n := nat_of_ascii c in
  (Nat.leb 9 n && Nat.leb n 13) || (Nat.leb 28 n && Nat.leb n 32).

Fixpoint lstrip (s : string) : string :=
  match s with
  | EmptyString => EmptyString
  | String c rest => if isspace c then lstrip rest else s
  end.

Fixpoint rstrip (s : string) : string :=
  match s with
  | EmptyString => EmptyString
  | String c rest =>
      match rstrip rest with
      | EmptyString => if isspace c then EmptyString else String c EmptyString
      | String c' rest' => String c (String c' rest')
      end
  end.

(** [s.strip()]. *)
Definition strip (s : string) : string := rstrip (lstrip s).

(** [s.split(sep)] for a separator of one character. *)
Fixpoint split (sep : ascii) (s : string) : list string :=
  match s with
  | EmptyString => [EmptyString]
  | String c rest =>
      if Ascii.eqb c sep then EmptyString :: split sep rest
      else match split sep rest with
           | [] => [String c EmptyString]
           | field :: fields => String c field :: fields
           end
  end.

(** [s.replace(old, new)] for [old] and [new] of one character. *)
Definition replace (old new : ascii) (s : string) : string :=
  smap (fun c => if Ascii.eqb c old then new else c) s.

(** A cased character of ASCII: a letter. *)
Definition is_cased (c : ascii) : bool :=
  let n := nat_of_ascii c in
  (Nat.leb 65 n && Nat.leb n 90) || (Nat.leb 97 n && Nat.leb n 122).

(** [s.title()]: a character that follows a cased one is lowered, any
    other character is raised. *)
Fixpoint title_from (previous_is_cased : bool) (s : string) : string :=
  match s with
  | EmptyString => EmptyString
  | String c rest =>
      String (if previous_is_cased then lower_ascii c else upper_ascii c)
             (title_from (is_cased c) rest)
  end.

Definition title (s : string) : string := title_from false s.

(** [s * n]. *)
Fixpoint times (s : string) (n : nat) : string :=
  match n with
  | O => EmptyString
  | S n' => s ++ times s n'
  end.

Definition newline : string := String (ascii_of_nat 10) EmptyString.

Definition nonempty (s : string) : bool :=
  match s with
  | EmptyString => false
  | String _ _ => true
  end.

End Str.

(* ================================================================= *)
(** ** The interactive loop of the OpenStates client (lines 126-163) *)

Module Cli.
Import Py OpenStates Str.

(** What ends the process abnormally: an exception of the client's
    vocabulary, or the [EOFError] of [input] at the end of the input. *)
Inductive crash : Type :=
| Raised (e : exn)
| EOFError.

(** Code of the front end: it prints, sends requests through the client,
    and can crash. *)
Definition C (A : Type) : Type := state -> (crash + A) * state.

Definition retC {A : Type} (a : A) : C A := fun st => (inr a, st).

Definition crashC {A : Type} (c : crash) : C A := fun st => (inl c, st).

Definition bindC {A B : Type} (c : C A) (k : A -> C B) : C B :=
  fun st =>
    match c st with
    | (inl e, st') => (inl e, st')
    | (inr a, st') => k a st'
    end.

Declare Scope cli_scope.
Delimit Scope cli_scope with cli.
Notation "x <- c ;; k" := (bindC c (fun x => k))
  (at level 61, c at next level, right associativity) : cli_scope.
Notation "c ;;; k" := (bindC c (fun _ => k))
  (at level 61, right associativity) : cli_scope.

(** Client code run by the front end. *)
Definition run {A : Type} (c : M A) : C A :=
  fun st =>
    match c st with
    | (inl e, st') => (inl (Raised e), st')
    | (inr a, st') => (inr a, st')
    end.

Definition say (line : string) : C unit := run (print [Lit line]).

Definition liftC {A : Type} (c : exn + A) : C A :=
  fun st =>
    match c with
    | inl e => (inl (Raised e), st)
    | inr a => (inr a, st)
    end.

Definition prompt_keyword : string :=
  newline ++ "Enter a keyword to search for bills (e.g., 'education', 'tax', 'health', or 'exit' to quit): ".

Definition prompt_jurisdiction : string :=
  "Enter a state/territory abbreviation (e.g., 'ga' for Georgia, 'ny' for New York, 'all' for all available states, or leave blank for 'ga'): ".

Definition rule50 : string := times "-" 50.

(** Line 150: [bill['classification'].replace('_', ' ').title()]. *)
Definition type_label (classification : json) : exn + string :=
  match classification with
  | JStr s => inr (Str.title (replace "_" " " s))
  | _ => inl AttributeError
  end.

(** Line 154: the stripped, non-empty pieces of the abstract between
    its full stops. *)
Definition sentences (s : string) : list string :=
  map strip (filter (fun line => nonempty (strip line)) (split "." s)).

Definition abstract_lines (abstract : json) : exn + list string :=
  match abstract with
  | JStr s => inr (sentences s)
  | _ => inl AttributeError
  end.

Fixpoint say_bullets (lines : list string) : C unit :=
  match lines with
  | [] => retC tt
  | line :: rest => (say ("  - " ++ line ++ ".") ;;; say_bullets rest)%cli
  end.

(** Lines 148-159: the block printed for one bill. *)
Definition print_bill (bill : bill_record) : C unit :=
  (run (print [Lit "Bill ID: "; Val (identifier bill)]) ;;;
   run (print [Lit "Title: "; Val (OpenStates.title bill)]) ;;;
   label <- liftC (type_label (classification bill)) ;;
   say ("Type: " ++ label) ;;;
   run (print [Lit "Status: "; Val (status bill)]) ;;;
   run (print [Lit "Subjects: "; Val (subjects bill)]) ;;;
   lines <- liftC (abstract_lines (abstract bill)) ;;
   say "Abstract:" ;;;
   say_bullets lines ;;;
   run (print [Lit "View Full Bill: "; Val (openstates_url bill)]) ;;;
   say rule50)%cli.

Fixpoint print_bills (bills : list bill_record) : C unit :=
  match bills with
  | [] => retC tt
  | bill :: rest => (print_bill bill ;;; print_bills rest)%cli
  end.

Definition msg_no_bills (keyword_input jurisdiction_input : string) : string :=
  "No bills found for '" ++ keyword_input ++ "' in "
  ++ upper jurisdiction_input
  ++ ". Please try a different keyword or jurisdiction.".

Section Loop.

Variable OPENSTATES_API_KEY : string.
Variable srv : server.

(** The call [search_bill_openstates(keyword_input, jurisdiction_input)]:
    the defaults of the signature for the session and the limit, and a
    frame of its own, in which [response] and [data] start unbound. *)
Definition call_search (keyword_input jurisdiction_input : string)
  : C (list bill_record) :=
  fun st =>
    run (search_bill_openstates OPENSTATES_API_KEY srv
           keyword_input jurisdiction_input default_session default_limit)
        {| sent := sent st; stdout := stdout st;
           response := None; data := None |}.

(** Lines 142-161: one search and the printing of its results. *)
Definition search_and_print (keyword_input jurisdiction_input : string)
  : C unit :=
  (say rule50 ;;;
   results <- call_search keyword_input jurisdiction_input ;;
   match results with
   | _ :: _ =>
       say (newline ++ "--- Search Results ---") ;;;
       print_bills results
   | [] => say (msg_no_bills keyword_input jurisdiction_input)
   end)%cli.

(** Lines 130-161: the [while True] loop, over the lines that [input]
    will read.  A prompt is recorded like a printed line. *)
Fixpoint repl (inputs : list string) : C unit :=
  match inputs with
  | [] => (say prompt_keyword ;;; crashC EOFError)%cli
  | line :: rest =>
      (say prompt_keyword ;;;
       let keyword_input := strip line in
       if String.eqb (lower keyword_input) "exit" then retC tt
       else if negb (nonempty keyword_input)
       then say "Please enter a valid keyword." ;;; repl rest
       else
         match rest with
         | [] => say prompt_jurisdiction ;;; crashC EOFError
         | line2 :: rest2 =>
             say prompt_jurisdiction ;;;
             let jurisdiction_input := lower (strip line2) in
             let jurisdiction_input :=
               if negb (nonempty jurisdiction_input) then "ga"
               else jurisdiction_input in
             search_and_print keyword_input jurisdiction_input ;;;
             repl rest2
         end)%cli
  end.

(** Lines 126-163. *)
Definition main (inputs : list string) : C unit :=
  (say "Welcome to LexLearner CLI (OpenStates v3 API)" ;;;
   say "Making legal data accessible to everyone." ;;;
   repl inputs ;;;
   say "Exiting LexLearner. Goodbye!")%cli.

End Loop.

End Cli.

(* ================================================================= *)
(** ** The front end of the static catalogue (keyword_search.py, lines 23-37) *)

Module LegacyCli.
Import Py Str.

Definition prompt : string :=
  "Enter a keyword to search for bills (e.g., 'climate', 'education'): ".

Definition rule20 : string := times "-" 20.

(** Lines 32-35. *)
Definition bill_lines (b : Legacy.bill) : list string :=
  [ "Title: " ++ Legacy.title b;
    "Status: " ++ Legacy.status b;
    "Bill ID: " ++ Legacy.bill_id b;
    rule20 ]%string.

(** What the script wrote, and whether it ended by the [EOFError] of
    [input]. *)
Record session : Type := mkSession {
  written : list string;
  eof_error : bool
}.

(** Lines 23-37, over the lines that [input] will read.  The prompt is
    recorded like a printed line. *)
Definition main (inputs : list string) : session :=
  let welcome :=
    ["Welcome to LexLearner CLI (Version 1 - Simulation Mode)"; prompt] in
  match inputs with
  | [] => {| written := welcome; eof_error := true |}
  | user_input :: _ =>
      let r := Legacy.search_bill user_input in
      {| written :=
           welcome ++ Legacy.printed r ++
           match Legacy.returned r with
           | _ :: _ =>
               (newline ++ "--- Search Results ---")%string
               :: flat_map bill_lines (Legacy.returned r)
           | [] =>
               [("There were no bills found for '" ++ user_input
                 ++ "'. Please try again.")%string]
           end;
         eof_error := false |}
  end.

End LegacyCli.

(* ================================================================= *)
(** ** Further vocabulary *)

Module Trace.
Import Py OpenStates Spec.

(** The outcome is a response that [raise_for_status] lets through and
    whose body parses. *)
Definition answered_well (out : http_outcome) : Prop :=
  exists r d, out = Responded r /\ passes r /\ body r = Some d.

(** The lines the handlers print for a failure of the transport. *)
Definition transport_report (t : transport_error) : list fstring :=
  match t with
  | NoConnection | ConnectTimedOut =>
      [ [Lit "Connection error occurred: "; Err (exn_of_transport t)];
        [Lit "Please check your internet connection."] ]
  | ReadTimedOut =>
      [ [Lit "Timeout error occurred: "; Err (exn_of_transport t)];
        [Lit "The API server took too long to respond."] ]
  | OtherTransport =>
      [ [Lit "An unexpected request error occurred: ";
         Err (exn_of_transport t)] ]
  end.

(** The value of a field of a detail response, or its default. *)
Definition field (kvs : list (string * json)) (k : string) (default : string)
  : json :=
  match assoc k kvs with
  | Some v => v
  | None => JStr default
  end.

(** A line is the exit command. *)
Definition is_exit (line : string) : bool :=
  String.eqb (lower (Str.strip line)) "exit".

(** A line is blank. *)
Definition is_blank (line : string) : bool :=
  negb (Str.nonempty (Str.strip line)).

(** The character [c] occurs in [s]. *)
Fixpoint has_char (c : ascii) (s : string) : bool :=
  match s with
  | EmptyString => false
  | String c' rest => Ascii.eqb c' c || has_char c rest
  end.

(** The two lines a blank keyword costs: the prompt and the reminder. *)
Definition blank_round : list fstring :=
  [ [Lit Cli.prompt_keyword]; [Lit "Please enter a valid keyword."] ].

(** The state [st] after [lines] more were printed. *)
Definition printed_more (st : state) (lines : list fstring) : state :=
  {| sent := sent st;
     stdout := stdout st ++ lines;
     response := response st;
     data := data st |}.

(** The bullet of line 157. *)
Definition bullet (line : string) : fstring :=
  [Lit ("  - " ++ line ++ ".")].

(** The block of lines 148-159 for a bill whose classification is the
    string [c] and whose abstract is the string [a]. *)
Definition bill_block (bill : bill_record) (c a : string) : list fstring :=
  [ [Lit "Bill ID: "; Val (identifier bill)];
    [Lit "Title: "; Val (title bill)];
    [Lit ("Type: " ++ Str.title (Str.replace "_" " " c))];
    [Lit "Status: "; Val (status bill)];
    [Lit "Subjects: "; Val (subjects bill)];
    [Lit "Abstract:"] ]
  ++ map bullet (Cli.sentences a)
  ++ [ [Lit "View Full Bill: "; Val (openstates_url bill)];
       [Lit Cli.rule50] ].

(** The state of a front end that has sent and printed nothing. *)
Definition fresh : state :=
  {| sent := []; stdout := []; response := None; data := None |}.

End Trace.

(* ================================================================= *)
(** ** Further scenarios *)

Module Cases.
Import Py OpenStates.

(** The only result of the list search has no [id]. *)
Definition anonymous_results : list (string * json) :=
  [("results", JArr [JObj [("identifier", JStr "HB 9")]])].

Definition srv_anonymous : server :=
  fun _ _ => Scenario.ok (JObj anonymous_results).

(** The connection attempt times out. *)
Definition srv_connect_timeout : server := fun _ _ => Failed ConnectTimedOut.

(** The list search finds two bills; reading the answer to any detail
    request times out. *)
Definition srv_detail_read_timeout : server :=
  fun hist _ =>
    match hist with
    | [] => Scenario.ok Scenario.two_bills
    | _ :: _ => Failed ReadTimedOut
    end.

(** A detail response whose abstract is [null]. *)
Definition null_abstract_fields : list (string * json) :=
  [("identifier", JStr "HB 4"); ("classification", JStr "bill");
   ("abstract", JNull)].

(** Two bills are found; every detail is the documented response
    [Scenario.loans_detail]. *)
Definition srv_documented : server :=
  fun hist _ =>
    match hist with
    | [] => Scenario.ok Scenario.two_bills
    | _ :: _ => Scenario.ok Scenario.loans_detail
    end.

End Cases.

(* ================================================================= *)
(** ** The failures of a search, as the server and the responses show them *)

Module Failure.
Import Py OpenStates Spec.

(** The list search [rq] fails with the exception [e]: the transport
    fails, the status is 4xx or 5xx, the body is not JSON, the body is
    not an object, or its [results] cannot be iterated. *)
Inductive list_failure (srv : server) (rq : request) : exn -> Prop :=
| ListTransport (t : transport_error) :
    srv [] rq = Failed t ->
    list_failure srv rq (exn_of_transport t)
| ListStatus (r : http_response) :
    srv [] rq = Responded r ->
    400 <= status_code r < 600 ->
    list_failure srv rq (HTTPError (status_code r))
| ListNotJson (r : http_response) :
    srv [] rq = Responded r ->
    passes r ->
    body r = None ->
    list_failure srv rq JSONDecodeError
| ListNotObject (r : http_response) (d : json) (e : exn) :
    srv [] rq = Responded r ->
    passes r ->
    body r = Some d ->
    get d "results" (JArr []) = inl e ->
    list_failure srv rq e
| ListNotIterable (r : http_response) (d bills_found : json) (e : exn) :
    srv [] rq = Responded r ->
    passes r ->
    body r = Some d ->
    get d "results" (JArr []) = inr bills_found ->
    truthy bills_found = true ->
    iter bills_found = inl e ->
    list_failure srv rq e.

(** The detail fetch of [bill], made after the requests [hist], fails
    with the exception [e]: the bill has no [id], the transport fails,
    the status is 4xx or 5xx, the body is not JSON, or the body cannot be
    formatted. *)
Inductive detail_failure (srv : server) (key : string)
    (hist : list request) (bill : json) : exn -> Prop :=
| DetailNoId (e : exn) :
    getitem bill "id" = inl e ->
    detail_failure srv key hist bill e
| DetailTransport (id : json) (t : transport_error) :
    getitem bill "id" = inr id ->
    srv hist (detail_request key id) = Failed t ->
    detail_failure srv key hist bill (exn_of_transport t)
| DetailStatus (id : json) (r : http_response) :
    getitem bill "id" = inr id ->
    srv hist (detail_request key id) = Responded r ->
    400 <= status_code r < 600 ->
    detail_failure srv key hist bill (HTTPError (status_code r))
| DetailNotJson (id : json) (r : http_response) :
    getitem bill "id" = inr id ->
    srv hist (detail_request key id) = Responded r ->
    passes r ->
    body r = None ->
    detail_failure srv key hist bill JSONDecodeError
| DetailNotFormatted (id : json) (r : http_response) (d : json) (e : exn) :
    getitem bill "id" = inr id ->
    srv hist (detail_request key id) = Responded r ->
    passes r ->
    body r = Some d ->
    format_bill d = inl e ->
    detail_failure srv key hist bill e.

(** Among the bills the loop visits under [limit], the detail fetches of
    the bills [done] succeed, one after the other, and the fetch of the
    next bill fails with [e]. *)
Definition loop_failure (srv : server) (key : string) (rq : request)
    (limit : Z) (bills : list json) (e : exn) : Prop :=
  exists done bill rest ids recs,
    bills = done ++ bill :: rest /\
    Z.of_nat (length done) < limit /\
    Forall2 (fun b id => getitem b "id" = inr id) done ids /\
    Forall2 formats_to
      (answers srv [rq] (map (detail_request key) ids)) recs /\
    detail_failure srv key (rq :: map (detail_request key) ids) bill e.

(** A search fails with [e]: in the list search, or in the detail fetch
    of one of the bills the list search found. *)
Inductive search_failure (srv : server) (key : string) (rq : request)
    (limit : Z) : exn -> Prop :=
| InListSearch (e : exn) :
    list_failure srv rq e ->
    search_failure srv key rq limit e
| InDetails (r : http_response) (d bills_found : json) (bills : list json)
    (e : exn) :
    srv [] rq = Responded r ->
    passes r ->
    body r = Some d ->
    get d "results" (JArr []) = inr bills_found ->
    truthy bills_found = true ->
    iter bills_found = inr bills ->
    loop_failure srv key rq limit bills e ->
    search_failure srv key rq limit e.

(** Two states that agree on everything but what was printed. *)
Definition same_but_printed (st st' : state) : Prop :=
  sent st = sent st' /\ response st = response st' /\ data st = data st'.

End Failure.

(* ================================================================= *)
(** ** Properties of the OpenStates client *)

Import Py OpenStates Spec.

(** *** The loop over the bills *)

Section Loop.

Variable key : string.
Variable srv : server.

Lemma fetch_bill_frame (bill : json) (st st' : state) res :
  fetch_bill key srv bill st = (res, st') ->
  response st' = response st /\ data st' = data st /\
  stdout st' = stdout st.
Proof.
  unfold fetch_bill, bind, lift, requests_get, raise_for_status, json_of,
    ret, raise.
  destruct (getitem bill "id") as [e|bill_id]; [intros [= <- <-]; auto|].
  destruct (srv (sent st) (detail_request key bill_id)) as [r|t];
    [|intros [= <- <-]; auto].
  destruct ((400 <=? status_code r) && (status_code r <? 600))%Z;
    [intros [= <- <-]; auto|].
  destruct (body r); intros [= <- <-]; auto.
Qed.

Lemma fetch_details_frame (bills : list json) :
  forall limit i acc st res st',
    fetch_details key srv limit i bills acc st = (res, st') ->
    response st' = response st /\ data st' = data st /\
    stdout st' = stdout st.
Proof.
  induction bills as [|bill rest IH]; intros limit i acc st res st'; cbn.
  - intros [= <- <-]; auto.
  - destruct (limit <=? i)%Z; [intros [= <- <-]; auto|].
    unfold bind. destruct (fetch_bill key srv bill st) as [[e|r] st1] eqn:Hb.
    + intros [= <- <-]. eapply fetch_bill_frame; eauto.
    + intros Hrest. apply IH in Hrest. apply fetch_bill_frame in Hb.
      intuition congruence.
Qed.

(** Once the index has reached the limit the loop ends at once. *)
Lemma fetch_details_stop (bills : list json) limit i acc st :
  limit <= i ->
  fetch_details key srv limit i bills acc st = (inr acc, st).
Proof.
  intros Hle. destruct bills as [|bill rest]; cbn; [reflexivity|].
  apply Z.leb_le in Hle. now rewrite Hle.
Qed.

(** One turn of the loop that does not raise: one request, for the id of
    the bill, answered by a response that formats to the new record. *)
Lemma fetch_bill_ok (bill : json) (st st' : state) (rec : bill_record) :
  fetch_bill key srv bill st = (inr rec, st') ->
  exists id,
    getitem bill "id" = inr id /\
    sent st' = sent st ++ [detail_request key id] /\
    formats_to (srv (sent st) (detail_request key id)) rec.
Proof.
  unfold fetch_bill, bind, lift, requests_get, raise_for_status, json_of,
    ret, raise.
  destruct (getitem bill "id") as [e|id]; [discriminate|].
  destruct (srv (sent st) (detail_request key id)) as [r|t] eqn:Hsrv;
    [|discriminate].
  destruct ((400 <=? status_code r) && (status_code r <? 600))%Z eqn:Hst;
    [discriminate|].
  destruct (body r) as [d|] eqn:Hbody; [|discriminate].
  destruct (format_bill d) as [e|rec'] eqn:Hfmt; intros [= <- <-].
  exists id. repeat split; cbn; auto.
  exists r, d. auto.
Qed.

(** A run of the loop that does not raise visits the first
    [limit - i] bills in order. *)
Lemma fetch_details_ok (bills : list json) :
  forall limit i acc st recs st',
    fetch_details key srv limit i bills acc st = (inr recs, st') ->
    exists ids new,
      recs = acc ++ new /\
      Forall2 (fun bill id => getitem bill "id" = inr id)
              (firstn (Z.to_nat (limit - i)) bills) ids /\
      sent st' = sent st ++ map (detail_request key) ids /\
      Forall2 formats_to
              (answers srv (sent st) (map (detail_request key) ids)) new.
Proof.
  induction bills as [|bill rest IH]; intros limit i acc st recs st'; cbn.
  - intros [= <- <-]. exists [], []. rewrite firstn_nil, !app_nil_r.
    repeat split; constructor.
  - destruct (limit <=? i)%Z eqn:Hlim.
    + intros [= <- <-]. apply Z.leb_le in Hlim.
      replace (Z.to_nat (limit - i)) with 0%nat by lia.
      exists [], []. cbn. rewrite !app_nil_r. repeat split; constructor.
    + apply Z.leb_gt in Hlim. unfold bind.
      destruct (fetch_bill key srv bill st) as [[e|r] st1] eqn:Hb;
        [discriminate|].
      intros Hrest. apply IH in Hrest.
      destruct Hrest as (ids & new & -> & Hids & Hsent & Hans).
      apply fetch_bill_ok in Hb. destruct Hb as (id & Hid & Hsent1 & Hfmt).
      exists (id :: ids), (r :: new).
      replace (Z.to_nat (limit - i))
        with (S (Z.to_nat (limit - (i + 1)))) by lia.
      cbn. rewrite <- app_assoc. repeat split; auto.
      * rewrite Hsent, Hsent1, <- app_assoc. reflexivity.
      * constructor; auto. now rewrite <- Hsent1.
Qed.

End Loop.

(** *** The [try] block and its handlers *)

Section Handlers.

Variable key : string.
Variable srv : server.

(** The function is the [try] block run after the banner, with the
    handlers applied to what it raises. *)
Lemma search_bill_openstates_unfold keyword jurisdiction session limit :
  search_bill_openstates key srv keyword jurisdiction session limit init =
  match try_block key srv keyword jurisdiction session limit
          (entered keyword jurisdiction session) with
  | (inr v, st1) => (inr v, st1)
  | (inl e, st1) => handlers e st1
  end.
Proof. reflexivity. Qed.

(** A handler whose locals are bound prints and returns the empty list. *)
Lemma handlers_return_empty (e : exn) (st : state) :
  (isinstance e CHTTPError = true -> response st <> None) ->
  (isinstance e CKeyError = true -> data st <> None) ->
  exists st',
    handlers e st = (inr [], st') /\
    sent st' = sent st /\
    exists line rest,
      stdout st' = stdout st ++ line :: rest /\ is_error_line line = true.
Proof.
  intros Hresp Hdata. unfold handlers, bind, print, ret, get_response, get_data.
  destruct e; cbn [isinstance] in *;
    try (eexists; split; [reflexivity|]; split; [reflexivity|];
         cbn [stdout]; rewrite <- ?app_assoc; cbn [app];
         do 2 eexists; split; reflexivity).
  - destruct (response st) as [r|]; [|now destruct Hresp].
    destruct ((status_code r =? 401) || (status_code r =? 403))%Z;
      eexists; (split; [reflexivity|]); (split; [reflexivity|]);
      cbn [stdout]; rewrite <- ?app_assoc; cbn [app];
      do 2 eexists; split; reflexivity.
  - destruct (data st) as [d|]; [|now destruct Hdata].
    eexists; split; [reflexivity|]; split; [reflexivity|].
    cbn [stdout]. rewrite <- ?app_assoc. cbn [app].
    do 2 eexists; split; reflexivity.
Qed.

(** Whatever the [try] block raises, the local its handler reads is
    bound: an [HTTPError] comes from [raise_for_status], after [response]
    was assigned; a [KeyError] comes from the loop, after [data] was. *)
Lemma try_block_locals keyword jurisdiction session limit st e st' :
  try_block key srv keyword jurisdiction session limit st = (inl e, st') ->
  (isinstance e CHTTPError = true -> response st' <> None) /\
  (isinstance e CKeyError = true -> data st' <> None).
Proof.
  unfold try_block, bind, requests_get, set_response, raise_for_status,
    json_of, set_data, lift, print, ret, raise.
  destruct (srv (sent st) _) as [r|t].
  2:{ intros [= <- <-]. destruct t; cbn; split; discriminate. }
  cbn [response status_code sent stdout data].
  destruct ((400 <=? status_code r) && (status_code r <? 600))%Z.
  { intros [= <- <-]. cbn. split; [discriminate|discriminate]. }
  destruct (body r) as [d|].
  2:{ intros [= <- <-]. cbn. split; discriminate. }
  destruct (get d "results" (JArr [])) as [e0|bills_found] eqn:Hget.
  { intros [= <- <-]. destruct d; cbn in Hget; try discriminate;
      injection Hget as <-; cbn; split; discriminate. }
  destruct (truthy bills_found); cbn [negb]; [|discriminate].
  destruct (iter bills_found) as [e0|bills] eqn:Hiter.
  { intros [= <- <-]. destruct bills_found; cbn in Hiter; try discriminate;
      injection Hiter as <-; cbn; split; discriminate. }
  intros Hloop. apply fetch_details_frame in Hloop.
  destruct Hloop as (Hr & Hd & _). cbn in Hr, Hd.
  rewrite Hr, Hd. split; discriminate.
Qed.

(** No exception reaches the caller. *)
Lemma search_never_raises keyword jurisdiction session limit :
  exists recs st',
    search_bill_openstates key srv keyword jurisdiction session limit init
    = (inr recs, st').
Proof.
  rewrite search_bill_openstates_unfold.
  destruct (try_block key srv keyword jurisdiction session limit
              (entered keyword jurisdiction session)) as [[e|v] st1] eqn:Htry.
  - apply try_block_locals in Htry. destruct Htry as [Hr Hd].
    destruct (handlers_return_empty e st1 Hr Hd) as (st' & Hh & _).
    eauto.
  - eauto.
Qed.

(** What a raising [try] block leads to. *)
Lemma search_after_raise keyword jurisdiction session limit e st1 :
  try_block key srv keyword jurisdiction session limit
    (entered keyword jurisdiction session) = (inl e, st1) ->
  exists st',
    search_bill_openstates key srv keyword jurisdiction session limit init
    = (inr [], st') /\
    sent st' = sent st1 /\
    exists line rest,
      stdout st' = stdout st1 ++ line :: rest /\ is_error_line line = true.
Proof.
  intros Htry. rewrite search_bill_openstates_unfold, Htry.
  apply try_block_locals in Htry. destruct Htry as [Hr Hd].
  apply handlers_return_empty; assumption.
Qed.

(** The [try] block, once the list search was answered by a response
    that passes and parses to an object, is decided by its [results]. *)
Lemma try_block_answered keyword jurisdiction session limit r kvs :
  srv [] (search_request key keyword jurisdiction session limit)
    = Responded r ->
  passes r ->
  body r = Some (JObj kvs) ->
  try_block key srv keyword jurisdiction session limit
    (entered keyword jurisdiction session)
  = let st2 := loop_entry key keyword jurisdiction session limit r (JObj kvs) in
    let bills_found :=
      match assoc "results" kvs with Some v => v | None => JArr [] end in
    if truthy bills_found
    then match iter bills_found with
         | inl e => (inl e, st2)
         | inr bills => fetch_details key srv limit 0 bills [] st2
         end
    else (inr [],
          {| sent := sent st2;
             stdout := stdout st2 ++ [msg_no_initial keyword jurisdiction];
             response := response st2;
             data := data st2 |}).
Proof.
  intros Hsrv Hpass Hbody.
  unfold try_block, bind, requests_get, set_response, raise_for_status,
    json_of, set_data, lift, print, ret, raise.
  cbn [entered sent stdout response data].
  rewrite Hsrv. cbn [status_code]. unfold passes in Hpass. rewrite Hpass.
  rewrite Hbody. cbn [get].
  destruct (truthy _); cbn [negb]; [|reflexivity].
  destruct (iter _); reflexivity.
Qed.

End Handlers.

(** With a limit that is not positive the [try] block sends the list
    search and nothing else, and returns no record. *)
Lemma try_block_nonpositive_limit key srv keyword jurisdiction session limit
    res st1 :
  limit <= 0 ->
  try_block key srv keyword jurisdiction session limit
    (entered keyword jurisdiction session) = (res, st1) ->
  sent st1 = [search_request key keyword jurisdiction session limit] /\
  forall v, res = inr v -> v = [].
Proof.
  intros Hlim.
  unfold try_block, bind, requests_get, set_response, raise_for_status,
    json_of, set_data, lift, print, ret, raise.
  cbn [entered sent stdout response data app].
  destruct (srv [] _) as [r|t].
  2:{ intros [= <- <-]. split; [reflexivity|discriminate]. }
  cbn [status_code].
  destruct ((400 <=? status_code r) && (status_code r <? 600))%Z.
  { intros [= <- <-]. split; [reflexivity|discriminate]. }
  destruct (body r) as [d|].
  2:{ intros [= <- <-]. split; [reflexivity|discriminate]. }
  destruct (get d "results" (JArr [])) as [e0|bills_found].
  { intros [= <- <-]. split; [reflexivity|discriminate]. }
  destruct (truthy bills_found); cbn [negb].
  2:{ intros [= <- <-]. split; [reflexivity|]. now intros v [= <-]. }
  destruct (iter bills_found) as [e0|bills].
  { intros [= <- <-]. split; [reflexivity|discriminate]. }
  rewrite fetch_details_stop by assumption.
  intros [= <- <-]. split; [reflexivity|]. now intros v [= <-].
Qed.

(** *** The contract of the client *)

(** C10.  With a limit that is zero or negative the call returns the
    empty list and the only request it sends is the list search: no
    detail is fetched, whatever the list response contains. *)
Theorem nonpositive_limit_fetches_nothing
    key srv keyword jurisdiction session limit :
  limit <= 0 ->
  exists st',
    search_bill_openstates key srv keyword jurisdiction session limit init
    = (inr [], st') /\
    sent st' = [search_request key keyword jurisdiction session limit] /\
    filter is_detail (sent st') = [].
Proof.
  intros Hlim.
  destruct (try_block key srv keyword jurisdiction session limit
              (entered keyword jurisdiction session)) as [res st1] eqn:Htry.
  destruct (try_block_nonpositive_limit _ _ _ _ _ _ _ _ Hlim Htry)
    as [Hsent Hres].
  destruct res as [e|v].
  - destruct (search_after_raise key srv _ _ _ _ _ _ Htry)
      as (st' & Hrun & Hsent' & _).
    exists st'. rewrite Hsent', Hsent. auto.
  - rewrite (Hres v eq_refl) in Htry.
    exists st1. rewrite search_bill_openstates_unfold, Htry, Hsent. auto.
Qed.

Lemma nonpositive_limit_fetches_nothing_of_three :
  exists st',
    search_bill_openstates "secret" Scenario.srv_echo
      "tax" "ga" "current" (-2) init = (inr [], st') /\
    sent st' = [search_request "secret" "tax" "ga" "current" (-2)] /\
    filter is_detail (sent st') = [].
Proof.
  apply (nonpositive_limit_fetches_nothing "secret" Scenario.srv_echo
           "tax" "ga" "current" (-2)).
  lia.
Defined.

(** C6.  When the list response has no [results] or an empty [results]
    array, the call returns the empty list at once: the list search is the
    only request sent, and the only line printed after the banner is the
    notice that no bill was found; no handler runs. *)
Theorem no_results_returns_at_once
    key srv keyword jurisdiction session limit r kvs :
  srv [] (search_request key keyword jurisdiction session limit)
    = Responded r ->
  passes r ->
  body r = Some (JObj kvs) ->
  assoc "results" kvs = None \/ assoc "results" kvs = Some (JArr []) ->
  search_bill_openstates key srv keyword jurisdiction session limit init
  = (inr [],
     {| sent := [search_request key keyword jurisdiction session limit];
        stdout := [msg_searching keyword jurisdiction session;
                   msg_no_initial keyword jurisdiction];
        response := Some r;
        data := Some (JObj kvs) |}).
Proof.
  intros Hsrv Hpass Hbody Hres.
  rewrite search_bill_openstates_unfold.
  rewrite (try_block_answered key srv _ _ _ _ r kvs Hsrv Hpass Hbody).
  destruct Hres as [-> | ->]; reflexivity.
Qed.

Lemma no_results_returns_at_once_empty_array :
  search_bill_openstates "secret" Scenario.srv_no_results
    "zoning" "ga" "current" 20 init
  = (inr [],
     {| sent := [search_request "secret" "zoning" "ga" "current" 20];
        stdout := [msg_searching "zoning" "ga" "current";
                   msg_no_initial "zoning" "ga"];
        response := Some {| status_code := 200;
                            body := Some (JObj [("results", JArr [])]) |};
        data := Some (JObj [("results", JArr [])]) |}).
Proof.
  apply (no_results_returns_at_once "secret" Scenario.srv_no_results
           "zoning" "ga" "current" 20
           {| status_code := 200; body := Some (JObj [("results", JArr [])]) |}
           [("results", JArr [])]).
  - reflexivity.
  - reflexivity.
  - reflexivity.
  - right. reflexivity.
Defined.

(** C2.  For a limit [L >= 0] and a list response whose [results] array
    has [N] bills, a search whose [try] block does not raise sends, after
    the list search, exactly [min N L] detail requests, one for the id of
    each of the first [min N L] bills in the order of the array; and the
    records it returns are, in that same order, what the responses to
    those requests format to. *)
Theorem detail_fetches_follow_results
    key srv keyword jurisdiction session limit r kvs bills recs st' :
  0 <= limit ->
  srv [] (search_request key keyword jurisdiction session limit)
    = Responded r ->
  passes r ->
  body r = Some (JObj kvs) ->
  assoc "results" kvs = Some (JArr bills) ->
  try_block key srv keyword jurisdiction session limit
    (entered keyword jurisdiction session) = (inr recs, st') ->
  search_bill_openstates key srv keyword jurisdiction session limit init
  = (inr recs, st') /\
  exists ids,
    Z.of_nat (length ids) = Z.min (Z.of_nat (length bills)) limit /\
    Z.of_nat (length (filter is_detail (sent st'))) =
      Z.min (Z.of_nat (length bills)) limit /\
    Forall2 (fun bill id => getitem bill "id" = inr id)
            (firstn (length ids) bills) ids /\
    sent st' =
      search_request key keyword jurisdiction session limit
      :: map (detail_request key) ids /\
    Forall2 formats_to
      (answers srv [search_request key keyword jurisdiction session limit]
         (map (detail_request key) ids))
      recs.
Proof.
  intros Hlim Hsrv Hpass Hbody Hres Htry.
  split; [now rewrite search_bill_openstates_unfold, Htry|].
  rewrite (try_block_answered key srv _ _ _ _ r kvs Hsrv Hpass Hbody) in Htry.
  rewrite Hres in Htry. cbv zeta in Htry.
  destruct bills as [|bill rest].
  - cbn in Htry. injection Htry as <- <-.
    exists []. cbn. rewrite Z.min_l by lia. repeat split; constructor.
  - cbn [truthy iter] in Htry.
    apply fetch_details_ok in Htry.
    destruct Htry as (ids & new & -> & Hids & Hsent & Hans).
    rewrite Z.sub_0_r in Hids. cbn [loop_entry sent app] in Hsent, Hans.
    assert (Hlen : length ids
                   = Nat.min (Z.to_nat limit) (length (bill :: rest))).
    { rewrite <- (Forall2_length Hids). apply length_firstn. }
    assert (Hfirst : firstn (length ids) (bill :: rest)
                     = firstn (Z.to_nat limit) (bill :: rest)).
    { rewrite Hlen. destruct (Nat.le_ge_cases (Z.to_nat limit)
                                (length (bill :: rest))) as [Hle|Hge].
      - now rewrite Nat.min_l.
      - rewrite Nat.min_r by assumption.
        now rewrite firstn_all, firstn_all2. }
    assert (Hdetails : filter is_detail (map (detail_request key) ids)
                       = map (detail_request key) ids).
    { clear. induction ids as [|id ids IH]; cbn; [reflexivity|].
      now rewrite IH. }
    exists ids. rewrite Hsent, Hfirst.
    repeat split; auto.
    + rewrite Hlen. lia.
    + cbn [filter is_detail search_request url].
      rewrite Hdetails, length_map, Hlen. lia.
Qed.

Lemma detail_fetches_follow_results_two_of_three :
  exists st',
    search_bill_openstates "secret" Scenario.srv_echo
      "tax" "ga" "current" 2 init
    = (inr [ {| identifier := JStr "ocd-bill/1"; title := JStr "N/A";
                status := JStr "No recent action found.";
                subjects := JStr "N/A";
                abstract := JStr "No abstract available.";
                openstates_url := JStr "No URL available.";
                classification := JStr "N/A" |};
             {| identifier := JStr "ocd-bill/2"; title := JStr "N/A";
                status := JStr "No recent action found.";
                subjects := JStr "N/A";
                abstract := JStr "No abstract available.";
                openstates_url := JStr "No URL available.";
                classification := JStr "N/A" |} ], st') /\
    Z.of_nat (length (filter is_detail (sent st'))) = 2.
Proof.
  eexists.
  destruct (detail_fetches_follow_results "secret" Scenario.srv_echo
              "tax" "ga" "current" 2
              {| status_code := 200; body := Some Scenario.three_bills |}
              [("results", JArr [Scenario.bill_ref "ocd-bill/1";
                                 Scenario.bill_ref "ocd-bill/2";
                                 Scenario.bill_ref "ocd-bill/3"])]
              [Scenario.bill_ref "ocd-bill/1"; Scenario.bill_ref "ocd-bill/2";
               Scenario.bill_ref "ocd-bill/3"]
              _ _
              ltac:(lia) eq_refl eq_refl eq_refl eq_refl eq_refl)
    as [Hrun (ids & _ & Hcount & _)].
  split; [exact Hrun | exact Hcount].
Defined.

(** A list search that is itself refused with 401 or 403 does print the
    hint about the API key. *)
Lemma search_refused_prints_auth_hint
    key srv keyword jurisdiction session limit r :
  srv [] (search_request key keyword jurisdiction session limit)
    = Responded r ->
  status_code r = 401 \/ status_code r = 403 ->
  exists st',
    search_bill_openstates key srv keyword jurisdiction session limit init
    = (inr [], st') /\
    existsb is_auth_hint (stdout st') = true.
Proof.
  intros Hsrv Hcode.
  unfold search_bill_openstates, try_except, try_block, bind, requests_get,
    set_response, raise_for_status, json_of, set_data, lift, print, ret,
    raise, init.
  cbn [sent stdout response data app]. rewrite Hsrv. cbn [status_code].
  assert (Hbad : ((400 <=? status_code r) && (status_code r <? 600))%Z = true)
    by (destruct Hcode as [-> | ->]; reflexivity).
  rewrite Hbad.
  unfold handlers, bind, print, ret, get_response.
  cbn [isinstance response status_code sent stdout data].
  assert (Hauth : ((status_code r =? 401) || (status_code r =? 403))%Z = true)
    by (destruct Hcode as [-> | ->]; reflexivity).
  rewrite Hauth. eexists. split; [reflexivity|]. reflexivity.
Qed.

(** C1 (where the code departs from it).  The list search finds two
    bills and the first detail request is refused with 401: the call
    returns the empty list, but the handler reads the status of the list
    response, prints 200 as the status code, and prints no hint about the
    API key. *)
Theorem detail_refused_prints_no_auth_hint :
  Scenario.srv_detail_401
    [search_request "secret" "tax" "ga" "current" 20]
    (detail_request "secret" (JStr "ocd-bill/1"))
  = Responded {| status_code := 401; body := None |} /\
  fst (search_bill_openstates "secret" Scenario.srv_detail_401
         "tax" "ga" "current" 20 init) = inr [] /\
  stdout (snd (search_bill_openstates "secret" Scenario.srv_detail_401
                 "tax" "ga" "current" 20 init))
  = [msg_searching "tax" "ga" "current";
     [Lit "HTTP error occurred: "; Err (HTTPError 401);
      Lit " (Status code: "; Num 200; Lit ")"]] /\
  existsb is_auth_hint
    (stdout (snd (search_bill_openstates "secret" Scenario.srv_detail_401
                    "tax" "ga" "current" 20 init))) = false.
Proof. repeat split. Qed.

(** *** The record built from a detail response *)

Lemma truthy_nonempty_array (xs : list json) (x : json) :
  truthy (JArr (xs ++ [x])) = true.
Proof. destruct xs; reflexivity. Qed.

Lemma last_item_snoc (xs : list json) (x : json) :
  last_item (JArr (xs ++ [x])) = inr x.
Proof. cbn. now rewrite rev_app_distr. Qed.

(** The [status] of a record is what lines 75-79 compute. *)
Lemma format_bill_status (kvs : list (string * json)) (rec : bill_record) :
  format_bill (JObj kvs) = inr rec ->
  let actions :=
    match assoc "actions" kvs with Some v => v | None => JArr [] end in
  (if truthy actions
   then (latest <- last_item actions ;;
         get latest "description" (JStr "No description."))%err
   else inr (JStr "No recent action found."))
  = inr (status rec).
Proof.
  unfold format_bill. cbn [get bindE]. cbv zeta.
  destruct (if truthy _ then _ else _) as [e|text]; [discriminate|].
  cbn [bindE].
  destruct (iter _) as [e|items]; [discriminate|]. cbn [bindE].
  destruct (subject_names items) as [e|names]; [discriminate|]. cbn [bindE].
  destruct (match names with [] => _ | _ :: _ => _ end) as [e|joined];
    [discriminate|].
  cbn [bindE]. now intros [= <-].
Qed.

(** The [subjects] of a record are what lines 82 and 94 compute. *)
Lemma format_bill_subjects (kvs : list (string * json)) (rec : bill_record) :
  format_bill (JObj kvs) = inr rec ->
  exists items names text,
    iter (match assoc "subjects" kvs with Some v => v | None => JArr [] end)
      = inr items /\
    subject_names items = inr names /\
    match names with [] => inr "N/A" | _ :: _ => join ", " names end
      = inr text /\
    subjects rec = JStr text.
Proof.
  unfold format_bill. cbn [get bindE].
  destruct (if truthy _ then _ else _) as [e|latest]; [discriminate|].
  cbn [bindE].
  destruct (iter _) as [e|items] eqn:Hi; [discriminate|]. cbn [bindE].
  destruct (subject_names items) as [e|names] eqn:Hn; [discriminate|].
  cbn [bindE].
  destruct (match names with [] => _ | _ :: _ => _ end) as [e|joined] eqn:Hj;
    [discriminate|].
  cbn [bindE]. intros [= <-]. exists items, names, joined.
  repeat split; assumption.
Qed.

(** The names the comprehension keeps, once they are known to be strings,
    are the non-empty names of the entries. *)
Lemma subject_names_nonempty (entries : list json) :
  forall names ss,
    subject_names entries = inr names ->
    strs names = inr ss ->
    ss = nonempty_names entries.
Proof.
  induction entries as [|entry rest IH]; intros names ss; cbn.
  - intros [= <-] [= <-]. reflexivity.
  - destruct entry as [| b | q | s | xs | ekvs]; cbn; try discriminate.
    destruct (assoc "name" ekvs) as [v|] eqn:Hname; cbn.
    + destruct (truthy v) eqn:Htruthy.
      * destruct (subject_names rest) as [e|ns]; cbn; [discriminate|].
        intros [= <-]. cbn.
        destruct v as [| b | q | s | xs | okvs]; try discriminate.
        destruct (strs ns) as [e|ss'] eqn:Hss; cbn; [discriminate|].
        intros [= <-].
        destruct s as [|c s]; [discriminate|].
        f_equal. eapply IH; eauto.
      * intros Hrest Hstrs.
        destruct v as [| b | q | s | xs | okvs]; eauto.
        destruct s as [|c s]; [eauto|discriminate].
    + eauto.
Qed.

Lemma strs_length (names : list json) :
  forall ss, strs names = inr ss -> length ss = length names.
Proof.
  induction names as [|n rest IH]; intros ss; cbn.
  - now intros [= <-].
  - destruct n; try discriminate.
    destruct (strs rest) as [e|ss']; cbn; [discriminate|].
    intros [= <-]. cbn. f_equal. now apply IH.
Qed.

Lemma nonempty_names_unnamed (entries : list json) :
  Forall unnamed entries -> nonempty_names entries = [].
Proof.
  induction 1 as [|entry rest (ekvs & -> & Hname) _ IH]; cbn; [reflexivity|].
  destruct Hname as [-> | ->]; exact IH.
Qed.

(** C4.  In the record built from a detail response, [status] is
    "No recent action found." when [actions] is absent or is the empty
    array, and is the description of the last action when [actions] is a
    non-empty array whose last element has one. *)
Theorem status_field_from_actions
    (kvs : list (string * json)) (rec : bill_record) :
  format_bill (JObj kvs) = inr rec ->
  (assoc "actions" kvs = None \/ assoc "actions" kvs = Some (JArr []) ->
   status rec = JStr "No recent action found.") /\
  (forall acts lkvs description,
     assoc "actions" kvs = Some (JArr (acts ++ [JObj lkvs])) ->
     assoc "description" lkvs = Some description ->
     status rec = description).
Proof.
  intros Hfmt. apply format_bill_status in Hfmt. cbv zeta in Hfmt. split.
  - intros [Hact | Hact]; rewrite Hact in Hfmt; cbn in Hfmt; congruence.
  - intros acts lkvs description Hact Hdescr.
    rewrite Hact, truthy_nonempty_array, last_item_snoc in Hfmt.
    cbn in Hfmt. rewrite Hdescr in Hfmt. congruence.
Qed.

Lemma status_field_from_actions_loans :
  exists rec,
    format_bill Scenario.loans_detail = inr rec /\
    status rec = JStr "Referred to committee".
Proof.
  eexists. split; [reflexivity|].
  refine (proj2 (status_field_from_actions Scenario.loans_fields _ _)
            [JObj [("description", JStr "Introduced")]]
            [("description", JStr "Referred to committee")] _ _ _);
    reflexivity.
Defined.

(** C9.  When [actions] is a non-empty array whose last element is an
    object without a [description], the [status] of the record is
    "No description.". *)
Theorem status_field_without_description
    (kvs : list (string * json)) (rec : bill_record) acts lkvs :
  format_bill (JObj kvs) = inr rec ->
  assoc "actions" kvs = Some (JArr (acts ++ [JObj lkvs])) ->
  assoc "description" lkvs = None ->
  status rec = JStr "No description." /\
  status rec <> JStr "No recent action found.".
Proof.
  intros Hfmt Hact Hdescr. apply format_bill_status in Hfmt.
  cbv zeta in Hfmt.
  rewrite Hact, truthy_nonempty_array, last_item_snoc in Hfmt.
  cbn in Hfmt. rewrite Hdescr in Hfmt. injection Hfmt as <-.
  split; [reflexivity|discriminate].
Qed.

Lemma status_field_without_description_dated :
  exists rec,
    format_bill Scenario.undescribed_detail = inr rec /\
    status rec = JStr "No description." /\
    status rec <> JStr "No recent action found.".
Proof.
  eexists. split; [reflexivity|].
  refine (status_field_without_description Scenario.undescribed_fields _
            [JObj [("description", JStr "Introduced")]]
            [("date", JStr "2025-01-02")] _ _ _);
    reflexivity.
Defined.

(** C5.  In the record built from a detail response, [subjects] is "N/A"
    when [subjects] is absent, is the empty array, or is an array whose
    entries all have a missing or empty name; otherwise it is the
    non-empty names, in the order of the array, joined with a comma and a
    space. *)
Theorem subjects_field_joined
    (kvs : list (string * json)) (rec : bill_record) :
  format_bill (JObj kvs) = inr rec ->
  (assoc "subjects" kvs = None -> subjects rec = JStr "N/A") /\
  (forall entries,
     assoc "subjects" kvs = Some (JArr entries) ->
     Forall unnamed entries ->
     subjects rec = JStr "N/A") /\
  (forall entries,
     assoc "subjects" kvs = Some (JArr entries) ->
     subjects rec =
       JStr (match nonempty_names entries with
             | [] => "N/A"
             | _ :: _ => intercalate ", " (nonempty_names entries)
             end)).
Proof.
  intros Hfmt. apply format_bill_subjects in Hfmt.
  destruct Hfmt as (items & names & text & Hiter & Hnames & Htext & ->).
  assert (Harray : forall entries,
             assoc "subjects" kvs = Some (JArr entries) ->
             JStr text =
               JStr (match nonempty_names entries with
                     | [] => "N/A"
                     | _ :: _ => intercalate ", " (nonempty_names entries)
                     end)).
  { intros entries Hsub. rewrite Hsub in Hiter. cbn in Hiter.
    injection Hiter as <-.
    destruct names as [|n ns].
    - rewrite <- (subject_names_nonempty entries [] [] Hnames eq_refl).
      congruence.
    - unfold join in Htext.
      destruct (strs (n :: ns)) as [e|ss] eqn:Hss; cbn in Htext;
        [discriminate|].
      injection Htext as <-.
      rewrite <- (subject_names_nonempty entries _ _ Hnames Hss).
      apply strs_length in Hss. destruct ss; [discriminate|reflexivity]. }
  split; [|split].
  - intros Hsub. rewrite Hsub in Hiter. cbn in Hiter. injection Hiter as <-.
    cbn in Hnames. injection Hnames as <-. congruence.
  - intros entries Hsub Hall. rewrite (Harray entries Hsub).
    now rewrite (nonempty_names_unnamed entries Hall).
  - exact Harray.
Qed.

Lemma subjects_field_joined_loans :
  exists rec,
    format_bill Scenario.loans_detail = inr rec /\
    subjects rec = JStr "Education, Finance".
Proof.
  eexists. split; [reflexivity|].
  refine (proj2 (proj2 (subjects_field_joined Scenario.loans_fields _ _))
            [JObj [("name", JStr "Education")]; JObj [("name", JStr "")];
             JObj []; JObj [("name", JStr "Finance")]] _);
    reflexivity.
Defined.

(** Subject entries never make the comprehension or the join raise. *)
Lemma subject_names_of_entries (entries : list json) :
  Forall subject_entry entries ->
  exists names ss, subject_names entries = inr names /\ strs names = inr ss.
Proof.
  induction 1 as [|entry rest (ekvs & -> & Hname) _ IH]; cbn.
  - exists [], []. auto.
  - destruct IH as (names & ss & Hn & Hs).
    destruct Hname as [-> | (s & ->)]; cbn.
    + eauto.
    + destruct (negb (String.eqb s "")); [|eauto].
      rewrite Hn. cbn. exists (JStr s :: names), (s :: ss).
      cbn. now rewrite Hs.
Qed.

(** A documented detail response always yields a record. *)
Lemma format_bill_returns (kvs : list (string * json)) :
  documented_detail kvs -> exists rec, format_bill (JObj kvs) = inr rec.
Proof.
  intros [Hact Hsub]. unfold format_bill. cbn [get bindE].
  assert (Hstatus : exists text,
             (if truthy (match assoc "actions" kvs with
                         | Some v => v | None => JArr [] end)
              then (latest <- last_item
                                (match assoc "actions" kvs with
                                 | Some v => v | None => JArr [] end) ;;
                    get latest "description" (JStr "No description."))%err
              else inr (JStr "No recent action found.")) = inr text).
  { destruct Hact as [-> | [-> | (acts & lkvs & ->)]];
      [cbn; eauto | cbn; eauto |].
    rewrite truthy_nonempty_array, last_item_snoc. cbn. eauto. }
  destruct Hstatus as (text & ->). cbn [bindE].
  assert (Hnames : exists names ss,
             (items <- iter (match assoc "subjects" kvs with
                             | Some v => v | None => JArr [] end) ;;
              subject_names items)%err = inr names /\
             strs names = inr ss).
  { destruct Hsub as [-> | (entries & -> & Hall)]; cbn.
    - exists [], []. auto.
    - now apply subject_names_of_entries. }
  destruct Hnames as (names & ss & Hn & Hs).
  destruct (iter _) as [e|items]; [discriminate|]. cbn [bindE] in Hn |- *.
  rewrite Hn. cbn [bindE].
  destruct names as [|n ns]; cbn [bindE]; [eauto|].
  unfold join. rewrite Hs. cbn [bindE]. eauto.
Qed.

(* ================================================================= *)
(** ** Properties of the static catalogue *)

Lemma prefix_app (needle post : string) :
  String.prefix needle (needle ++ post) = true.
Proof.
  induction needle as [|c needle IH]; cbn; [now destruct post|].
  destruct (ascii_dec c c) as [_|Hne]; [exact IH|now destruct Hne].
Qed.

Lemma prefix_split (needle : string) :
  forall hay,
    String.prefix needle hay = true ->
    exists post, hay = (needle ++ post)%string.
Proof.
  induction needle as [|c needle IH]; intros hay.
  - intros _. now exists hay.
  - destruct hay as [|c' hay]; cbn; [discriminate|].
    destruct (ascii_dec c c') as [<-|_]; [|discriminate].
    intros Hp. destruct (IH hay Hp) as (post & ->). now exists post.
Qed.

Lemma contains_unfold (needle hay : string) :
  contains needle hay
  = String.prefix needle hay
    || match hay with
       | EmptyString => false
       | String _ rest => contains needle rest
       end.
Proof. destruct hay; reflexivity. Qed.

(** [contains] decides [Substring]. *)
Lemma contains_spec (needle hay : string) :
  contains needle hay = true <-> Substring needle hay.
Proof.
  split.
  - induction hay as [|c hay IH]; cbn [contains]; rewrite orb_true_iff.
    + intros [Hp | Hf]; [|discriminate].
      apply prefix_split in Hp. destruct Hp as (post & Hp).
      now exists ""%string, post.
    + intros [Hp | Hrest].
      * apply (prefix_split needle (String c hay)) in Hp.
        destruct Hp as (post & Hp). now exists ""%string, post.
      * destruct (IH Hrest) as (pre & post & ->).
        now exists (String c pre), post.
  - intros (pre & post & ->).
    induction pre as [|c pre IH].
    + cbn [String.append]. rewrite contains_unfold, prefix_app. reflexivity.
    + cbn [String.append contains]. rewrite IH. apply orb_true_r.
Qed.

Lemma contains_false (needle hay : string) :
  ~ Substring needle hay -> contains needle hay = false.
Proof.
  intros Hno. destruct (contains needle hay) eqn:Hc; [|reflexivity].
  now apply contains_spec in Hc.
Qed.

(** C8.  [search_bill] matches the lowercased keyword: when it contains
    "climate" the result is the two climate bills, also when it contains
    "education" as well; otherwise, when it contains "education", the
    result is the one education bill; otherwise the result is empty.
    Keywords that differ only in case get the same result.  In particular
    "climate change" finds the two climate bills and "unrelated" finds
    nothing. *)
Theorem search_bill_matches_categories (keyword : string) :
  (Substring "climate" (lower keyword) ->
   Legacy.returned (Legacy.search_bill keyword) = Legacy.climate_bills) /\
  (~ Substring "climate" (lower keyword) ->
   Substring "education" (lower keyword) ->
   Legacy.returned (Legacy.search_bill keyword) = Legacy.education_bills) /\
  (~ Substring "climate" (lower keyword) ->
   ~ Substring "education" (lower keyword) ->
   Legacy.returned (Legacy.search_bill keyword) = []) /\
  (forall other,
     lower other = lower keyword ->
     Legacy.returned (Legacy.search_bill other)
     = Legacy.returned (Legacy.search_bill keyword)) /\
  Legacy.returned (Legacy.search_bill "climate change")
  = [ {| Legacy.title := "Clean Air Act Amendment of 2025";
         Legacy.status := "Passed House, Awaiting Senate Vote";
         Legacy.bill_id := "hr3684" |};
      {| Legacy.title := "Climate Change Mitigation Bill";
         Legacy.status := "Introduced";
         Legacy.bill_id := "s1234" |} ] /\
  Legacy.returned (Legacy.search_bill "unrelated") = [].
Proof.
  unfold Legacy.search_bill. cbn [Legacy.returned].
  split; [|split; [|split; [|split; [|split]]]].
  - intros Hc. apply contains_spec in Hc. now rewrite Hc.
  - intros Hc He. apply contains_false in Hc. apply contains_spec in He.
    now rewrite Hc, He.
  - intros Hc He. apply contains_false in Hc, He. now rewrite Hc, He.
  - intros other ->. reflexivity.
  - reflexivity.
  - reflexivity.
Qed.

Lemma search_bill_matches_categories_both :
  Legacy.returned (Legacy.search_bill "Education and CLIMATE")
  = Legacy.climate_bills.
Proof.
  apply (proj1 (search_bill_matches_categories "Education and CLIMATE")).
  exists "education and "%string, ""%string. reflexivity.
Defined.

(* ================================================================= *)
(** ** Every run of the client: requests, records, failures *)

Import Trace.

Lemma answers_app (srv : server) (rqs1 : list request) :
  forall hist rqs2,
    answers srv hist (rqs1 ++ rqs2)
    = answers srv hist rqs1 ++ answers srv (hist ++ rqs1) rqs2.
Proof.
  induction rqs1 as [|rq rqs1 IH]; intros hist rqs2; cbn.
  - now rewrite app_nil_r.
  - rewrite IH, <- app_assoc. reflexivity.
Qed.

Lemma Forall_removelast_cons {A : Type} (P : A -> Prop) (a : A) (l : list A) :
  P a -> Forall P (removelast l) -> Forall P (removelast (a :: l)).
Proof.
  intros Ha Hl. destruct l as [|b l]; cbn; [constructor|].
  constructor; assumption.
Qed.

Lemma formats_to_answered_well (out : http_outcome) (rec : bill_record) :
  formats_to out rec -> answered_well out.
Proof. intros (r & d & -> & Hp & Hb & _). now exists r, d. Qed.

Section Runs.

Variable key : string.
Variable srv : server.

(** One turn of the loop sends at most one request, for the id of the
    bill. *)
Lemma fetch_bill_trace (bill : json) (st st' : state) res :
  fetch_bill key srv bill st = (res, st') ->
  (sent st' = sent st /\ exists e, res = inl e) \/
  (exists id,
     getitem bill "id" = inr id /\
     sent st' = sent st ++ [detail_request key id] /\
     forall rec, res = inr rec ->
       formats_to (srv (sent st) (detail_request key id)) rec).
Proof.
  intros Hrun. destruct res as [e|rec].
  - unfold fetch_bill, bind, lift, requests_get in Hrun.
    destruct (getitem bill "id") as [e0|id] eqn:Hid.
    + injection Hrun as <- <-. left. eauto.
    + right. exists id. split; [reflexivity|]. split; [|discriminate].
      destruct (srv (sent st) (detail_request key id)) as [r|t];
        [|now injection Hrun as _ <-].
      unfold raise_for_status, raise, ret, json_of in Hrun.
      destruct ((400 <=? status_code r) && (status_code r <? 600))%Z;
        [now injection Hrun as _ <-|].
      destruct (body r); [|now injection Hrun as _ <-].
      now injection Hrun as _ <-.
  - right. apply fetch_bill_ok in Hrun.
    destruct Hrun as (id & Hid & Hsent & Hfmt).
    exists id. repeat split; auto. now intros rec' [= <-].
Qed.

(** Any run of the loop, raising or not. *)
Lemma fetch_details_trace (bills : list json) :
  forall limit i acc st res st',
    fetch_details key srv limit i bills acc st = (res, st') ->
    exists ids,
      sent st' = sent st ++ map (detail_request key) ids /\
      (length ids <= Z.to_nat (limit - i))%nat /\
      Forall2 (fun bill id => getitem bill "id" = inr id)
              (firstn (length ids) bills) ids /\
      Forall answered_well
        (removelast (answers srv (sent st) (map (detail_request key) ids))) /\
      forall recs, res = inr recs ->
        (length recs <= length acc + length ids)%nat.
Proof.
  induction bills as [|bill rest IH]; intros limit i acc st res st'; cbn.
  - intros [= <- <-]. exists []. cbn. rewrite app_nil_r.
    split; [reflexivity|]. split; [lia|]. split; [constructor|].
    split; [constructor|]. intros recs [= <-]. lia.
  - destruct (limit <=? i)%Z eqn:Hlim.
    + intros [= <- <-]. exists []. cbn. rewrite app_nil_r.
      split; [reflexivity|]. split; [lia|]. split; [constructor|].
      split; [constructor|]. intros recs [= <-]. lia.
    + apply Z.leb_gt in Hlim. unfold bind.
      destruct (fetch_bill key srv bill st) as [[e|r] st1] eqn:Hb.
      * intros [= <- <-]. apply fetch_bill_trace in Hb.
        destruct Hb as [[Hsent _] | (id & Hid & Hsent & _)].
        -- exists []. cbn. rewrite app_nil_r.
           split; [assumption|]. split; [lia|]. split; [constructor|].
           split; [constructor|discriminate].
        -- exists [id]. cbn.
           split; [assumption|]. split; [lia|].
           split; [repeat constructor; assumption|].
           split; [constructor|discriminate].
      * intros Hrest. apply fetch_bill_trace in Hb.
        destruct Hb as [[_ (e & He)] | (id & Hid & Hsent & Hfmt)];
          [discriminate|].
        apply IH in Hrest.
        destruct Hrest as (ids & Hsent' & Hlen & Hids & Hwell & Hrecs).
        exists (id :: ids). cbn [map length firstn answers].
        split; [|split; [|split; [|split]]].
        -- rewrite Hsent', Hsent, <- app_assoc. reflexivity.
        -- lia.
        -- constructor; assumption.
        -- apply Forall_removelast_cons.
           ++ eapply formats_to_answered_well. now apply Hfmt.
           ++ now rewrite <- Hsent.
        -- intros recs Hr. specialize (Hrecs recs Hr).
           rewrite length_app in Hrecs. cbn in Hrecs. lia.
Qed.

(** Any run of the [try] block, from any state. *)
Lemma try_block_trace keyword jurisdiction session limit st res st1 :
  try_block key srv keyword jurisdiction session limit st = (res, st1) ->
  exists ids,
    sent st1 =
      sent st ++ search_request key keyword jurisdiction session limit
                 :: map (detail_request key) ids /\
    (length ids <= Z.to_nat limit)%nat /\
    Forall answered_well
      (removelast
         (answers srv (sent st)
            (search_request key keyword jurisdiction session limit
             :: map (detail_request key) ids))) /\
    forall recs, res = inr recs -> (length recs <= length ids)%nat.
Proof.
  unfold try_block, bind, requests_get, set_response, raise_for_status,
    json_of, set_data, lift, print, ret, raise.
  set (rq := search_request key keyword jurisdiction session limit).
  assert (Hstop : forall (res0 : exn + list bill_record),
             (forall recs, res0 = inr recs -> recs = []) ->
             exists ids,
               sent st ++ [rq] = sent st ++ rq :: map (detail_request key) ids /\
               (length ids <= Z.to_nat limit)%nat /\
               Forall answered_well
                 (removelast
                    (answers srv (sent st)
                       (rq :: map (detail_request key) ids))) /\
               forall recs, res0 = inr recs -> (length recs <= length ids)%nat).
  { intros res0 Hres0. exists []. cbn.
    split; [reflexivity|]. split; [lia|]. split; [constructor|].
    intros recs Hr. now rewrite (Hres0 recs Hr). }
  destruct (srv (sent st) rq) as [r|t] eqn:Hsrv.
  2:{ intros [= <- <-]. apply Hstop. discriminate. }
  cbn [response status_code sent stdout data].
  destruct ((400 <=? status_code r) && (status_code r <? 600))%Z eqn:Hpass.
  { intros [= <- <-]. apply Hstop. discriminate. }
  destruct (body r) as [d|] eqn:Hbody.
  2:{ intros [= <- <-]. apply Hstop. discriminate. }
  destruct (get d "results" (JArr [])) as [e0|bills_found].
  { intros [= <- <-]. apply Hstop. discriminate. }
  destruct (truthy bills_found); cbn [negb].
  2:{ intros [= <- <-]. apply Hstop. now intros recs [= <-]. }
  destruct (iter bills_found) as [e0|bills].
  { intros [= <- <-]. apply Hstop. discriminate. }
  intros Hloop. apply fetch_details_trace in Hloop.
  destruct Hloop as (ids & Hsent & Hlen & _ & Hwell & Hrecs).
  cbn [sent] in Hsent, Hwell. rewrite Z.sub_0_r in Hlen.
  exists ids. split; [|split; [|split]]; auto.
  - rewrite Hsent, <- app_assoc. reflexivity.
  - cbn [answers]. apply Forall_removelast_cons; [|exact Hwell].
    exists r, d. auto.
Qed.

(** The function, from any state, is the [try] block run after the
    banner, with the handlers applied to what it raises. *)
Lemma search_bill_openstates_from keyword jurisdiction session limit st :
  search_bill_openstates key srv keyword jurisdiction session limit st =
  try_except (try_block key srv keyword jurisdiction session limit) handlers
    {| sent := sent st;
       stdout := stdout st ++ [msg_searching keyword jurisdiction session];
       response := response st;
       data := data st |}.
Proof. reflexivity. Qed.

(** Any call, from any state: it returns, and what it sent is the list
    search followed by at most [limit] detail requests, each of them but
    the last answered well. *)
Lemma search_trace keyword jurisdiction session limit st :
  exists recs st' ids,
    search_bill_openstates key srv keyword jurisdiction session limit st
    = (inr recs, st') /\
    sent st' =
      sent st ++ search_request key keyword jurisdiction session limit
                 :: map (detail_request key) ids /\
    (length ids <= Z.to_nat limit)%nat /\
    Forall answered_well
      (removelast
         (answers srv (sent st)
            (search_request key keyword jurisdiction session limit
             :: map (detail_request key) ids))) /\
    (length recs <= length ids)%nat.
Proof.
  rewrite search_bill_openstates_from. unfold try_except.
  destruct (try_block key srv keyword jurisdiction session limit _)
    as [[e|recs] st1] eqn:Htry.
  - destruct (try_block_locals key srv _ _ _ _ _ _ _ Htry) as [Hr Hd].
    destruct (handlers_return_empty e st1 Hr Hd) as (st' & Hh & Hsent & _).
    apply try_block_trace in Htry.
    destruct Htry as (ids & Hs & Hlen & Hwell & _).
    exists [], st', ids. rewrite Hh, Hsent, Hs. cbn [length].
    split; [reflexivity|]. split; [reflexivity|]. split; [assumption|].
    split; [assumption|lia].
  - apply try_block_trace in Htry.
    destruct Htry as (ids & Hs & Hlen & Hwell & Hrecs).
    exists recs, st1, ids.
    split; [reflexivity|]. split; [assumption|]. split; [assumption|].
    split; [assumption|]. now apply Hrecs.
Qed.

End Runs.

Lemma detail_requests_are_details (key : string) (ids : list json) :
  filter is_detail (map (detail_request key) ids)
  = map (detail_request key) ids.
Proof. induction ids as [|id ids IH]; cbn; [reflexivity|now rewrite IH]. Qed.

(** X1.  Whatever the server answers and whether the call fails or not,
    the requests of a call are the list search followed by at most
    [max 0 limit] detail requests, and every one of them carries the API
    key in its [X-API-KEY] header and no other header. *)
Theorem requests_are_keyed_and_bounded
    key srv keyword jurisdiction session limit :
  exists ids,
    sent (snd (search_bill_openstates key srv keyword jurisdiction session
                 limit init))
    = search_request key keyword jurisdiction session limit
      :: map (detail_request key) ids /\
    Z.of_nat (length ids) <= Z.max 0 limit /\
    Forall (fun rq => headers rq = [("X-API-KEY", key)])
      (sent (snd (search_bill_openstates key srv keyword jurisdiction session
                    limit init))).
Proof.
  destruct (search_trace key srv keyword jurisdiction session limit init)
    as (recs & st' & ids & -> & Hsent & Hlen & _ & _).
  cbn [snd]. cbn [init sent app] in Hsent. rewrite Hsent.
  exists ids. repeat split; [lia|].
  constructor; [reflexivity|].
  apply Forall_forall. intros rq Hin. apply in_map_iff in Hin.
  destruct Hin as (id & <- & _). reflexivity.
Qed.

(** X2.  A call never returns more records than it sent detail requests,
    and never more than [max 0 limit]. *)
Theorem records_are_bounded key srv keyword jurisdiction session limit :
  exists recs st',
    search_bill_openstates key srv keyword jurisdiction session limit init
    = (inr recs, st') /\
    (length recs <= length (filter is_detail (sent st')))%nat /\
    Z.of_nat (length recs) <= Z.max 0 limit.
Proof.
  destruct (search_trace key srv keyword jurisdiction session limit init)
    as (recs & st' & ids & Hrun & Hsent & Hlen & _ & Hrecs).
  exists recs, st'. cbn [init sent app] in Hsent.
  rewrite Hsent. cbn [filter is_detail search_request url].
  rewrite detail_requests_are_details, length_map.
  repeat split; [assumption|assumption|lia].
Qed.

(** X3.  A request whose answer is a transport failure, an error status
    or a body that does not parse is the last request of the call: every
    request that is followed by another one was answered well. *)
Theorem no_request_follows_a_failure
    key srv keyword jurisdiction session limit pre rq post :
  sent (snd (search_bill_openstates key srv keyword jurisdiction session
               limit init)) = pre ++ rq :: post ->
  post <> [] ->
  answered_well (srv pre rq).
Proof.
  destruct (search_trace key srv keyword jurisdiction session limit init)
    as (recs & st' & ids & -> & Hsent & _ & Hwell & _).
  cbn [snd]. cbn [init sent app] in Hsent, Hwell.
  rewrite <- Hsent in Hwell. intros Hsplit Hpost. rewrite Hsplit in Hwell.
  rewrite answers_app in Hwell. cbn [answers app] in Hwell.
  rewrite removelast_app in Hwell by discriminate.
  apply Forall_app in Hwell. destruct Hwell as [_ Hwell].
  destruct post as [|rq' post]; [now destruct Hpost|].
  cbn in Hwell. now inversion Hwell.
Qed.

Lemma no_request_follows_a_failure_first_detail :
  answered_well
    (Scenario.srv_second_detail_500
       [search_request "secret" "loans" "ga" "current" 20]
       (detail_request "secret" (JStr "ocd-bill/1"))).
Proof.
  apply (no_request_follows_a_failure "secret" Scenario.srv_second_detail_500
           "loans" "ga" "current" 20
           [search_request "secret" "loans" "ga" "current" 20]
           (detail_request "secret" (JStr "ocd-bill/1"))
           [detail_request "secret" (JStr "ocd-bill/2")]).
  - reflexivity.
  - discriminate.
Defined.

(* ================================================================= *)
(** ** What the handlers print *)

Lemma banner_is_no_hint keyword jurisdiction session :
  is_auth_hint (msg_searching keyword jurisdiction session) = false.
Proof. reflexivity. Qed.

Lemma notice_is_no_hint keyword jurisdiction :
  is_auth_hint (msg_no_initial keyword jurisdiction) = false.
Proof. reflexivity. Qed.

(** With both locals bound, the handlers add the hint exactly for an
    [HTTPError] when the status of [response] is 401 or 403. *)
Lemma handlers_hint (e : exn) (st : state) r d :
  response st = Some r ->
  data st = Some d ->
  existsb is_auth_hint (stdout (snd (handlers e st)))
  = existsb is_auth_hint (stdout st)
    || (isinstance e CHTTPError
        && ((status_code r =? 401) || (status_code r =? 403))%Z).
Proof.
  intros Hr Hd. unfold handlers.
  destruct e; cbn [isinstance andb];
    unfold bind, print, ret, get_response, get_data; rewrite ?Hr, ?Hd;
    try (cbn [snd stdout data response sent];
         rewrite <- ?app_assoc, existsb_app; reflexivity).
  destruct ((status_code r =? 401) || (status_code r =? 403))%Z;
    cbn [snd stdout]; rewrite <- ?app_assoc, existsb_app; reflexivity.
Qed.

Lemma passing_status_is_no_auth_failure (r : http_response) :
  passes r ->
  ((status_code r =? 401) || (status_code r =? 403))%Z = false.
Proof.
  unfold passes. intros Hp.
  destruct (status_code r =? 401)%Z eqn:H1;
    [apply Z.eqb_eq in H1; rewrite H1 in Hp; discriminate|].
  destruct (status_code r =? 403)%Z eqn:H3;
    [apply Z.eqb_eq in H3; rewrite H3 in Hp; discriminate|].
  reflexivity.
Qed.

(** The hint is printed by a call exactly when the answer to the list
    search has status 401 or 403. *)
Lemma auth_hint_decided_by_list_search
    key srv keyword jurisdiction session limit :
  existsb is_auth_hint
    (stdout (snd (search_bill_openstates key srv keyword jurisdiction session
                    limit init)))
  = match srv [] (search_request key keyword jurisdiction session limit) with
    | Responded r => ((status_code r =? 401) || (status_code r =? 403))%Z
    | Failed _ => false
    end.
Proof.
  rewrite search_bill_openstates_unfold.
  unfold try_block, bind, requests_get, set_response, raise_for_status,
    json_of, set_data, lift, print, ret, raise.
  cbn [entered sent stdout response data app].
  destruct (srv [] _) as [r|t]; [|destruct t; reflexivity].
  cbn [status_code].
  destruct ((400 <=? status_code r) && (status_code r <? 600))%Z eqn:Hpass.
  { unfold handlers, bind, print, ret, get_response.
    cbn [isinstance response status_code stdout].
    destruct ((status_code r =? 401) || (status_code r =? 403))%Z;
      reflexivity. }
  rewrite (passing_status_is_no_auth_failure r Hpass).
  destruct (body r) as [d|]; [|reflexivity].
  destruct (get d "results" (JArr [])) as [e0|bills_found] eqn:Hget.
  { destruct d; cbn in Hget; try discriminate; injection Hget as <-;
      reflexivity. }
  destruct (truthy bills_found); cbn [negb]; [|reflexivity].
  destruct (iter bills_found) as [e0|bills] eqn:Hiter.
  { destruct bills_found; cbn in Hiter; try discriminate;
      injection Hiter as <-; reflexivity. }
  destruct (fetch_details key srv limit 0 bills [] _) as [[e|recs] st1] eqn:Hloop;
    apply fetch_details_frame in Hloop; cbn [response data stdout] in Hloop;
    destruct Hloop as (Hr & Hd & Hout).
  - rewrite (handlers_hint e st1 r d Hr Hd), Hout.
    rewrite (passing_status_is_no_auth_failure r Hpass), andb_false_r.
    reflexivity.
  - cbn [snd]. rewrite Hout. reflexivity.
Qed.

(** X4.  A call prints the hint about the API key if and only if the
    list search was answered with status 401 or 403; the status of a
    detail response never brings it about. *)
Theorem auth_hint_iff_list_search_refused
    key srv keyword jurisdiction session limit :
  existsb is_auth_hint
    (stdout (snd (search_bill_openstates key srv keyword jurisdiction session
                    limit init))) = true
  <->
  exists r,
    srv [] (search_request key keyword jurisdiction session limit)
      = Responded r /\
    (status_code r = 401 \/ status_code r = 403).
Proof.
  rewrite auth_hint_decided_by_list_search.
  destruct (srv [] _) as [r|t]; split.
  - intros H. exists r. split; [reflexivity|].
    apply orb_true_iff in H. destruct H as [H|H]; apply Z.eqb_eq in H; auto.
  - intros (r' & [= <-] & [H|H]); rewrite H; reflexivity.
  - discriminate.
  - intros (r' & Hr & _). discriminate.
Qed.

(** X5.  When the list search is answered with a status from 400 to 599
    the call returns the empty list after that single request, and the
    line it prints carries that status; the hint follows when the status
    is 401 or 403; [data] was never assigned. *)
Theorem list_search_error_is_reported
    key srv keyword jurisdiction session limit r :
  srv [] (search_request key keyword jurisdiction session limit)
    = Responded r ->
  400 <= status_code r < 600 ->
  search_bill_openstates key srv keyword jurisdiction session limit init
  = (inr [],
     {| sent := [search_request key keyword jurisdiction session limit];
        stdout :=
          [msg_searching keyword jurisdiction session;
           [Lit "HTTP error occurred: "; Err (HTTPError (status_code r));
            Lit " (Status code: "; Num (status_code r); Lit ")"]]
          ++ (if ((status_code r =? 401) || (status_code r =? 403))%Z
              then [msg_auth_hint] else []);
        response := Some r;
        data := None |}).
Proof.
  intros Hsrv Hcode.
  rewrite search_bill_openstates_unfold.
  unfold try_block, bind, requests_get, set_response, raise_for_status,
    json_of, set_data, lift, print, ret, raise.
  cbn [entered sent stdout response data app]. rewrite Hsrv.
  cbn [status_code].
  assert (Hbad : ((400 <=? status_code r) && (status_code r <? 600))%Z = true).
  { apply andb_true_iff. split; [apply Z.leb_le|apply Z.ltb_lt]; lia. }
  rewrite Hbad.
  unfold handlers, bind, print, ret, get_response.
  cbn [isinstance response status_code stdout sent data].
  destruct ((status_code r =? 401) || (status_code r =? 403))%Z; reflexivity.
Qed.

Lemma list_search_error_is_reported_403 :
  search_bill_openstates "secret" Scenario.srv_search_403
    "tax" "ga" "current" 20 init
  = (inr [],
     {| sent := [search_request "secret" "tax" "ga" "current" 20];
        stdout :=
          [msg_searching "tax" "ga" "current";
           [Lit "HTTP error occurred: "; Err (HTTPError 403);
            Lit " (Status code: "; Num 403; Lit ")"];
           msg_auth_hint];
        response := Some {| status_code := 403; body := None |};
        data := None |}).
Proof.
  apply (list_search_error_is_reported "secret" Scenario.srv_search_403
           "tax" "ga" "current" 20 {| status_code := 403; body := None |}).
  - reflexivity.
  - cbn. lia.
Defined.

(** X6.  When the loop raises a [KeyError] (a bill of the list response
    without [id], for one), the call prints the missing key and then, as
    partial data, the body of the list response, and returns the empty
    list. *)
Theorem key_error_prints_list_payload
    key srv keyword jurisdiction session limit r kvs bills_found bills k st1 :
  srv [] (search_request key keyword jurisdiction session limit)
    = Responded r ->
  passes r ->
  body r = Some (JObj kvs) ->
  get (JObj kvs) "results" (JArr []) = inr bills_found ->
  truthy bills_found = true ->
  iter bills_found = inr bills ->
  fetch_details key srv limit 0 bills []
    (loop_entry key keyword jurisdiction session limit r (JObj kvs))
    = (inl (KeyError k), st1) ->
  search_bill_openstates key srv keyword jurisdiction session limit init
  = (inr [],
     {| sent := sent st1;
        stdout :=
          [msg_searching keyword jurisdiction session;
           [Lit "Error parsing API response. Missing expected key: ";
            Err (KeyError k)];
           [Lit "Partial data for debugging: "; Val (JObj kvs)]];
        response := Some r;
        data := Some (JObj kvs) |}).
Proof.
  intros Hsrv Hpass Hbody Hget Htruthy Hiter Hloop.
  rewrite search_bill_openstates_unfold.
  rewrite (try_block_answered key srv _ _ _ _ r kvs Hsrv Hpass Hbody).
  cbn [get] in Hget. injection Hget as Hget. cbv zeta.
  rewrite Hget, Htruthy, Hiter, Hloop.
  apply fetch_details_frame in Hloop.
  cbn [loop_entry response data stdout] in Hloop.
  destruct Hloop as (Hr & Hd & Hout).
  unfold handlers. cbn [isinstance].
  unfold bind, print, ret, get_data. cbn [stdout sent response data].
  rewrite Hd, Hr, Hout. reflexivity.
Qed.

Lemma key_error_prints_list_payload_anonymous :
  search_bill_openstates "secret" Cases.srv_anonymous
    "tax" "ga" "current" 20 init
  = (inr [],
     {| sent := [search_request "secret" "tax" "ga" "current" 20];
        stdout :=
          [msg_searching "tax" "ga" "current";
           [Lit "Error parsing API response. Missing expected key: ";
            Err (KeyError (KStr "id"))];
           [Lit "Partial data for debugging: ";
            Val (JObj Cases.anonymous_results)]];
        response := Some {| status_code := 200;
                            body := Some (JObj Cases.anonymous_results) |};
        data := Some (JObj Cases.anonymous_results) |}).
Proof.
  apply (key_error_prints_list_payload "secret" Cases.srv_anonymous
           "tax" "ga" "current" 20
           {| status_code := 200; body := Some (JObj Cases.anonymous_results) |}
           Cases.anonymous_results
           (JArr [JObj [("identifier", JStr "HB 9")]])
           [JObj [("identifier", JStr "HB 9")]]
           (KStr "id")
           (loop_entry "secret" "tax" "ga" "current" 20
              {| status_code := 200;
                 body := Some (JObj Cases.anonymous_results) |}
              (JObj Cases.anonymous_results)));
    reflexivity.
Defined.

(** X7.  When the list search fails in the transport, the call returns
    the empty list after that single request and reports the failure by
    its kind: a refused connection and a timeout while connecting as a
    connection error, a timeout while reading as a timeout, anything else
    as an unexpected request error. *)
Theorem transport_failure_is_reported
    key srv keyword jurisdiction session limit t :
  srv [] (search_request key keyword jurisdiction session limit) = Failed t ->
  search_bill_openstates key srv keyword jurisdiction session limit init
  = (inr [],
     {| sent := [search_request key keyword jurisdiction session limit];
        stdout := msg_searching keyword jurisdiction session
                  :: transport_report t;
        response := None;
        data := None |}).
Proof.
  intros Hsrv. rewrite search_bill_openstates_unfold.
  unfold try_block, bind, requests_get.
  cbn [entered sent stdout response data app]. rewrite Hsrv.
  destruct t; reflexivity.
Qed.

Lemma transport_failure_is_reported_connect_timeout :
  search_bill_openstates "secret" Cases.srv_connect_timeout
    "tax" "ga" "current" 20 init
  = (inr [],
     {| sent := [search_request "secret" "tax" "ga" "current" 20];
        stdout :=
          [msg_searching "tax" "ga" "current";
           [Lit "Connection error occurred: "; Err ConnectTimeout];
           [Lit "Please check your internet connection."]];
        response := None;
        data := None |}).
Proof.
  apply (transport_failure_is_reported "secret" Cases.srv_connect_timeout
           "tax" "ga" "current" 20 ConnectTimedOut).
  reflexivity.
Defined.

(* ================================================================= *)
(** ** More on the record built from a detail response *)

(** The fields that lines 71-72, 83-84 and 87 read with a default. *)
Lemma format_bill_plain_fields
    (kvs : list (string * json)) (rec : bill_record) :
  format_bill (JObj kvs) = inr rec ->
  identifier rec = field kvs "identifier" "N/A" /\
  title rec = field kvs "title" "N/A" /\
  abstract rec = field kvs "abstract" "No abstract available." /\
  openstates_url rec = field kvs "openstates_url" "No URL available." /\
  classification rec = field kvs "classification" "N/A".
Proof.
  unfold format_bill. cbn [get bindE].
  destruct (if truthy _ then _ else _) as [e|latest]; [discriminate|].
  cbn [bindE].
  destruct (iter _) as [e|items]; [discriminate|]. cbn [bindE].
  destruct (subject_names items) as [e|names]; [discriminate|]. cbn [bindE].
  destruct (match names with [] => _ | _ :: _ => _ end) as [e|joined];
    [discriminate|].
  cbn [bindE]. intros [= <-]. repeat split.
Qed.

(** X8.  In the record built from a detail response, [identifier],
    [title], [abstract], [openstates_url] and [classification] are the
    values of the fields of those names, whatever their type, and
    "N/A", "N/A", "No abstract available.", "No URL available." and "N/A"
    when the field is absent. *)
Theorem plain_fields_pass_through
    (kvs : list (string * json)) (rec : bill_record) :
  format_bill (JObj kvs) = inr rec ->
  identifier rec = field kvs "identifier" "N/A" /\
  title rec = field kvs "title" "N/A" /\
  abstract rec = field kvs "abstract" "No abstract available." /\
  openstates_url rec = field kvs "openstates_url" "No URL available." /\
  classification rec = field kvs "classification" "N/A".
Proof. apply format_bill_plain_fields. Qed.

Lemma plain_fields_pass_through_bare :
  exists rec,
    format_bill Scenario.bare_detail = inr rec /\
    identifier rec = JStr "HB 3" /\
    title rec = JStr "N/A" /\
    abstract rec = JStr "No abstract available." /\
    openstates_url rec = JStr "No URL available." /\
    classification rec = JStr "N/A".
Proof.
  eexists. split; [reflexivity|].
  refine (plain_fields_pass_through [("identifier", JStr "HB 3")] _ _).
  reflexivity.
Defined.

Lemma subject_names_truthy (items : list json) :
  forall names,
    subject_names items = inr names ->
    Forall (fun n => truthy n = true) names.
Proof.
  induction items as [|item rest IH]; intros names; cbn.
  - intros [= <-]. constructor.
  - destruct (get item "name" JNull) as [e|c] eqn:Hc; cbn; [discriminate|].
    destruct (truthy c) eqn:Htruthy; [|apply IH].
    destruct (get item "name" (JStr "")) as [e|n] eqn:Hn; cbn; [discriminate|].
    destruct (subject_names rest) as [e|ns]; cbn; [discriminate|].
    intros [= <-]. constructor; [|now apply IH].
    destruct item; cbn in Hc, Hn; try discriminate.
    destruct (assoc "name" kvs); [congruence|].
    injection Hc as <-. discriminate.
Qed.

Lemma strs_truthy (names : list json) :
  forall ss,
    Forall (fun n => truthy n = true) names ->
    strs names = inr ss ->
    Forall (fun s => s <> ""%string) ss.
Proof.
  induction names as [|n rest IH]; intros ss Hall; cbn.
  - intros [= <-]. constructor.
  - inversion Hall as [|n' rest' Hn Hrest]; subst.
    destruct n; try discriminate.
    destruct (strs rest) as [e|ss']; cbn; [discriminate|].
    intros [= <-]. constructor; [|now apply IH].
    intros ->. discriminate.
Qed.

Lemma intercalate_nonempty (sep s : string) (ss : list string) :
  s <> ""%string -> intercalate sep (s :: ss) <> ""%string.
Proof.
  intros Hs. cbn. destruct ss as [|s' ss]; [assumption|].
  destruct s; [now destruct Hs|discriminate].
Qed.

(** X9.  The [subjects] of a record is always a string, and never the
    empty one. *)
Theorem subjects_is_nonempty_text (detail_data : json) (rec : bill_record) :
  format_bill detail_data = inr rec ->
  exists s, subjects rec = JStr s /\ s <> ""%string.
Proof.
  destruct detail_data as [| b | q | s0 | xs | kvs]; try discriminate.
  intros Hfmt. apply format_bill_subjects in Hfmt.
  destruct Hfmt as (items & names & text & _ & Hnames & Htext & ->).
  exists text. split; [reflexivity|].
  destruct names as [|n ns].
  - injection Htext as <-. discriminate.
  - unfold join in Htext.
    destruct (strs (n :: ns)) as [e|ss] eqn:Hss; cbn in Htext; [discriminate|].
    injection Htext as <-.
    pose proof (strs_truthy _ _ (subject_names_truthy _ _ Hnames) Hss) as Hne.
    pose proof (strs_length _ _ Hss) as Hlen.
    destruct ss as [|s ss]; [discriminate|].
    apply intercalate_nonempty. now inversion Hne.
Qed.

Lemma subjects_is_nonempty_text_unnamed :
  exists rec s,
    format_bill Scenario.unnamed_subjects_detail = inr rec /\
    subjects rec = JStr s /\ s <> ""%string.
Proof.
  eexists.
  destruct (subjects_is_nonempty_text Scenario.unnamed_subjects_detail _
              eq_refl) as (s & Hs & Hne).
  exists s. split; [reflexivity|]. split; assumption.
Defined.

(* ================================================================= *)
(** ** A server that answers as documented *)

Section Documented.

Variable key : string.
Variable srv : server.

(** Every detail request sent after the list search is answered well, by
    a documented detail response. *)
Hypothesis details_documented :
  forall hist id,
    hist <> [] ->
    exists r kvs,
      srv hist (detail_request key id) = Responded r /\
      passes r /\ body r = Some (JObj kvs) /\ documented_detail kvs.

Lemma fetch_details_succeeds (bills : list json) :
  forall limit i acc st,
    sent st <> [] ->
    Forall (fun bill => exists id, getitem bill "id" = inr id) bills ->
    exists recs st',
      fetch_details key srv limit i bills acc st = (inr recs, st') /\
      length recs
      = (length acc + Nat.min (Z.to_nat (limit - i)) (length bills))%nat.
Proof.
  induction bills as [|bill rest IH]; intros limit i acc st Hsent Hids; cbn.
  - exists acc, st. split; [reflexivity|]. rewrite Nat.min_0_r. lia.
  - destruct (limit <=? i)%Z eqn:Hlim.
    + apply Z.leb_le in Hlim. exists acc, st. split; [reflexivity|].
      replace (Z.to_nat (limit - i)) with 0%nat by lia. cbn. lia.
    + apply Z.leb_gt in Hlim.
      inversion Hids as [|b l (id & Hid) Hrest]; subst.
      destruct (details_documented (sent st) id Hsent)
        as (r & kvs & Hsrv & Hpass & Hbody & Hdoc).
      destruct (format_bill_returns kvs Hdoc) as (rec & Hrec).
      assert (Hb : fetch_bill key srv bill st
                   = (inr rec,
                      {| sent := sent st ++ [detail_request key id];
                         stdout := stdout st;
                         response := response st;
                         data := data st |})).
      { unfold fetch_bill, bind, lift, requests_get, raise_for_status,
          json_of, ret. rewrite Hid, Hsrv.
        unfold passes in Hpass. rewrite Hpass, Hbody, Hrec. reflexivity. }
      unfold bind. rewrite Hb.
      destruct (IH limit (i + 1) (acc ++ [rec])
                  {| sent := sent st ++ [detail_request key id];
                     stdout := stdout st;
                     response := response st;
                     data := data st |})
        as (recs & st' & Hrun & Hlen).
      * cbn. now destruct (sent st).
      * assumption.
      * exists recs, st'. split; [exact Hrun|].
        rewrite Hlen, length_app. cbn [length].
        replace (Z.to_nat (limit - i))
          with (S (Z.to_nat (limit - (i + 1)))) by lia.
        cbn [Nat.min]. lia.
Qed.

Lemma search_succeeds keyword jurisdiction session limit r kvs bills :
  0 <= limit ->
  srv [] (search_request key keyword jurisdiction session limit)
    = Responded r ->
  passes r ->
  body r = Some (JObj kvs) ->
  assoc "results" kvs = Some (JArr bills) ->
  Forall (fun bill => exists id, getitem bill "id" = inr id) bills ->
  exists recs st',
    search_bill_openstates key srv keyword jurisdiction session limit init
    = (inr recs, st') /\
    Z.of_nat (length recs) = Z.min (Z.of_nat (length bills)) limit.
Proof.
  intros Hlim Hsrv Hpass Hbody Hres Hids.
  rewrite search_bill_openstates_unfold.
  rewrite (try_block_answered key srv _ _ _ _ r kvs Hsrv Hpass Hbody).
  rewrite Hres. cbv zeta.
  destruct bills as [|bill rest].
  - cbn. eexists _, _. split; [reflexivity|]. cbn. lia.
  - cbn [truthy iter].
    destruct (fetch_details_succeeds (bill :: rest) limit 0 []
                (loop_entry key keyword jurisdiction session limit r
                   (JObj kvs)))
      as (recs & st' & Hrun & Hlen); [discriminate|assumption|].
    rewrite Hrun. exists recs, st'. split; [reflexivity|].
    rewrite Hlen. cbn [length]. lia.
Qed.

End Documented.

(** X10.  When the list search is answered well with an array of [N]
    bills that all have an [id], and every detail request is answered
    well by a documented detail response, a call with a limit [L >= 0]
    returns exactly [min N L] records. *)
Theorem documented_answers_yield_records
    key srv keyword jurisdiction session limit r kvs bills :
  (forall hist id,
     hist <> [] ->
     exists r' dkvs,
       srv hist (detail_request key id) = Responded r' /\
       passes r' /\ body r' = Some (JObj dkvs) /\ documented_detail dkvs) ->
  0 <= limit ->
  srv [] (search_request key keyword jurisdiction session limit)
    = Responded r ->
  passes r ->
  body r = Some (JObj kvs) ->
  assoc "results" kvs = Some (JArr bills) ->
  Forall (fun bill => exists id, getitem bill "id" = inr id) bills ->
  exists recs st',
    search_bill_openstates key srv keyword jurisdiction session limit init
    = (inr recs, st') /\
    Z.of_nat (length recs) = Z.min (Z.of_nat (length bills)) limit.
Proof. intros Hdoc. now apply search_succeeds. Qed.

Lemma documented_loans : documented_detail Scenario.loans_fields.
Proof.
  split.
  - right. right.
    exists [JObj [("description", JStr "Introduced")]],
           [("description", JStr "Referred to committee")].
    reflexivity.
  - right. eexists. split; [reflexivity|].
    repeat constructor; eexists; (split; [reflexivity|]); cbn; eauto.
Qed.

Lemma documented_answers_yield_records_two :
  exists recs st',
    search_bill_openstates "secret" Cases.srv_documented
      "loans" "ga" "current" 20 init = (inr recs, st') /\
    Z.of_nat (length recs) = Z.min 2 20.
Proof.
  refine (documented_answers_yield_records "secret" Cases.srv_documented
            "loans" "ga" "current" 20
            {| status_code := 200; body := Some Scenario.two_bills |}
            [("results", JArr [Scenario.bill_ref "ocd-bill/1";
                               Scenario.bill_ref "ocd-bill/2"])]
            [Scenario.bill_ref "ocd-bill/1"; Scenario.bill_ref "ocd-bill/2"]
            _ _ eq_refl eq_refl eq_refl eq_refl _).
  - intros hist id Hhist. destruct hist as [|rq hist]; [now destruct Hhist|].
    exists {| status_code := 200; body := Some Scenario.loans_detail |},
           Scenario.loans_fields.
    split; [reflexivity|]. split; [reflexivity|]. split; [reflexivity|].
    exact documented_loans.
  - lia.
  - repeat constructor; eexists; reflexivity.
Defined.

(* ================================================================= *)
(** ** The jurisdiction *)

Import Failure.

Lemma same_but_printed_refl (st : state) : same_but_printed st st.
Proof. repeat split. Qed.

(** What a turn of the loop returns and sends does not depend on what
    was printed before. *)
Lemma fetch_bill_same key srv (bill : json) (st st' : state) :
  same_but_printed st st' ->
  fst (fetch_bill key srv bill st) = fst (fetch_bill key srv bill st') /\
  same_but_printed (snd (fetch_bill key srv bill st))
                   (snd (fetch_bill key srv bill st')).
Proof.
  intros (Hs & Hr & Hd).
  unfold fetch_bill, bind, lift, requests_get, raise_for_status, json_of,
    ret, raise, same_but_printed.
  rewrite <- Hs.
  destruct (getitem bill "id") as [e|id]; cbn; [auto|].
  destruct (srv (sent st) (detail_request key id)) as [r|t]; cbn;
    [|rewrite Hs; auto].
  destruct ((400 <=? status_code r) && (status_code r <? 600))%Z; cbn;
    [rewrite Hs; auto|].
  destruct (body r) as [d|]; cbn; [|rewrite Hs; auto].
  destruct (format_bill d); cbn; rewrite Hs; auto.
Qed.

Lemma fetch_details_same key srv (bills : list json) :
  forall limit i acc st st',
    same_but_printed st st' ->
    fst (fetch_details key srv limit i bills acc st)
    = fst (fetch_details key srv limit i bills acc st') /\
    same_but_printed (snd (fetch_details key srv limit i bills acc st))
                     (snd (fetch_details key srv limit i bills acc st')).
Proof.
  induction bills as [|bill rest IH]; intros limit i acc st st' Hsame;
    cbn [fetch_details].
  - cbn. auto.
  - destruct (limit <=? i)%Z; [cbn; auto|]. unfold bind.
    destruct (fetch_bill_same key srv bill st st' Hsame) as [Hres Hst].
    destruct (fetch_bill key srv bill st) as [res1 st1].
    destruct (fetch_bill key srv bill st') as [res1' st1'].
    cbn [fst snd] in Hres, Hst. subst res1'.
    destruct res1 as [e|r]; [cbn; auto|].
    now apply IH.
Qed.

(** Jurisdictions with the same lowercase form send the same list
    search. *)
Lemma search_request_lower key keyword jurisdiction1 jurisdiction2 session
    limit :
  lower jurisdiction1 = lower jurisdiction2 ->
  search_request key keyword jurisdiction1 session limit
  = search_request key keyword jurisdiction2 session limit.
Proof. intros H. unfold search_request. now rewrite H. Qed.

Lemma try_block_same key srv keyword jurisdiction1 jurisdiction2 session limit
    (st st' : state) :
  lower jurisdiction1 = lower jurisdiction2 ->
  same_but_printed st st' ->
  fst (try_block key srv keyword jurisdiction1 session limit st)
  = fst (try_block key srv keyword jurisdiction2 session limit st') /\
  same_but_printed
    (snd (try_block key srv keyword jurisdiction1 session limit st))
    (snd (try_block key srv keyword jurisdiction2 session limit st')).
Proof.
  intros Hlow (Hs & Hr & Hd).
  unfold try_block, bind, requests_get, set_response, raise_for_status,
    json_of, set_data, lift, print, ret, raise.
  rewrite <- (search_request_lower key keyword jurisdiction1 jurisdiction2
                session limit Hlow), <- Hs.
  destruct (srv (sent st) _) as [r|t]; cbn [fst snd];
    [|unfold same_but_printed; cbn; rewrite Hs; auto].
  cbn [response status_code sent stdout data].
  destruct ((400 <=? status_code r) && (status_code r <? 600))%Z;
    [unfold same_but_printed; cbn; rewrite Hs; auto|].
  destruct (body r) as [d|];
    [|unfold same_but_printed; cbn; rewrite Hs; auto].
  destruct (get d "results" (JArr [])) as [e0|bills_found];
    [unfold same_but_printed; cbn; rewrite Hs; auto|].
  destruct (truthy bills_found); cbn [negb];
    [|unfold same_but_printed; cbn; rewrite Hs; auto].
  destruct (iter bills_found) as [e0|bills];
    [unfold same_but_printed; cbn; rewrite Hs; auto|].
  apply fetch_details_same. unfold same_but_printed. cbn. now rewrite Hs.
Qed.

Lemma handlers_same (e : exn) (st st' : state) :
  same_but_printed st st' ->
  fst (handlers e st) = fst (handlers e st') /\
  same_but_printed (snd (handlers e st)) (snd (handlers e st')).
Proof.
  intros (Hs & Hr & Hd).
  unfold handlers, same_but_printed.
  destruct e; cbn [isinstance];
    unfold bind, print, ret, get_response, get_data; rewrite <- ?Hr, <- ?Hd;
    try (cbn; auto; fail).
  - destruct (response st) as [r|] eqn:Hresp;
      [|cbn; repeat split; congruence].
    destruct ((status_code r =? 401) || (status_code r =? 403))%Z;
      cbn; repeat split; congruence.
  - cbn [data]. rewrite <- ?Hd.
    destruct (data st) as [d|] eqn:Hdata; cbn; repeat split; congruence.
Qed.

(** X11.  Two calls whose jurisdictions have the same lowercase form send
    the same requests and return the same result: the jurisdiction
    reaches the server only in lowercase. *)
Theorem jurisdiction_case_is_ignored
    key srv keyword jurisdiction1 jurisdiction2 session limit :
  lower jurisdiction1 = lower jurisdiction2 ->
  fst (search_bill_openstates key srv keyword jurisdiction1 session limit init)
  = fst (search_bill_openstates key srv keyword jurisdiction2 session limit
           init) /\
  sent (snd (search_bill_openstates key srv keyword jurisdiction1 session
               limit init))
  = sent (snd (search_bill_openstates key srv keyword jurisdiction2 session
                 limit init)).
Proof.
  intros Hlow. rewrite !search_bill_openstates_unfold.
  destruct (try_block_same key srv keyword jurisdiction1 jurisdiction2
              session limit
              (entered keyword jurisdiction1 session)
              (entered keyword jurisdiction2 session) Hlow)
    as [Hres Hst]; [repeat split|].
  destruct (try_block key srv keyword jurisdiction1 session limit _)
    as [res1 st1].
  destruct (try_block key srv keyword jurisdiction2 session limit _)
    as [res2 st2].
  cbn [fst snd] in Hres, Hst. subst res2.
  destruct res1 as [e|recs].
  - destruct (handlers_same e st1 st2 Hst) as [Hh (Hsent & _)]. auto.
  - destruct Hst as (Hsent & _). auto.
Qed.

Lemma jurisdiction_case_is_ignored_ga :
  fst (search_bill_openstates "secret" Scenario.srv_echo "tax" "Ga" "current"
         2 init)
  = fst (search_bill_openstates "secret" Scenario.srv_echo "tax" "gA"
           "current" 2 init) /\
  sent (snd (search_bill_openstates "secret" Scenario.srv_echo "tax" "Ga"
               "current" 2 init))
  = sent (snd (search_bill_openstates "secret" Scenario.srv_echo "tax" "gA"
                 "current" 2 init)).
Proof.
  apply (jurisdiction_case_is_ignored "secret" Scenario.srv_echo
           "tax" "Ga" "gA" "current" 2).
  reflexivity.
Defined.

(* ================================================================= *)
(** ** The text the interactive loop prints for a bill *)

Lemma split_is_nonempty (sep : ascii) (s : string) : Str.split sep s <> [].
Proof.
  destruct s as [|c s]; cbn; [discriminate|].
  destruct (Ascii.eqb c sep); [discriminate|].
  destruct (Str.split sep s); discriminate.
Qed.

(** No field of a split contains the separator. *)
Lemma split_fields_lack_separator (sep : ascii) (s : string) :
  Forall (fun f => has_char sep f = false) (Str.split sep s).
Proof.
  induction s as [|c s IH]; cbn.
  - repeat constructor.
  - destruct (Ascii.eqb c sep) eqn:Hc.
    + constructor; [reflexivity|exact IH].
    + destruct (Str.split sep s) as [|f fs]; [repeat constructor; cbn|].
      * now rewrite Hc.
      * inversion IH as [|f' fs' Hf Hfs]; subst.
        constructor; [|assumption]. cbn. now rewrite Hc, Hf.
Qed.

Lemma lstrip_lacks (c : ascii) (s : string) :
  has_char c s = false -> has_char c (Str.lstrip s) = false.
Proof.
  induction s as [|c' s IH]; cbn; [auto|].
  intros H. apply orb_false_iff in H. destruct H as [Hc Hs].
  destruct (Str.isspace c'); [auto|]. cbn. now rewrite Hc, Hs.
Qed.

Lemma rstrip_lacks (c : ascii) (s : string) :
  has_char c s = false -> has_char c (Str.rstrip s) = false.
Proof.
  induction s as [|c' s IH]; cbn; [auto|].
  intros H. apply orb_false_iff in H. destruct H as [Hc Hs].
  specialize (IH Hs).
  destruct (Str.rstrip s) as [|c2 s2].
  - destruct (Str.isspace c'); cbn; [reflexivity|now rewrite Hc].
  - cbn [has_char] in IH |- *. rewrite Hc. exact IH.
Qed.

Lemma rstrip_cons (c : ascii) (s : string) :
  Str.rstrip (String c s)
  = match Str.rstrip s with
    | EmptyString =>
        if Str.isspace c then EmptyString else String c EmptyString
    | String c' rest' => String c (String c' rest')
    end.
Proof. reflexivity. Qed.

Lemma rstrip_idempotent (s : string) :
  Str.rstrip (Str.rstrip s) = Str.rstrip s.
Proof.
  induction s as [|c s IH]; [reflexivity|].
  rewrite rstrip_cons.
  destruct (Str.rstrip s) as [|c2 s2] eqn:Hr.
  - destruct (Str.isspace c) eqn:Hc; [reflexivity|].
    rewrite rstrip_cons. cbn. now rewrite Hc.
  - rewrite rstrip_cons, IH. reflexivity.
Qed.

(** What is left of a string after [lstrip] is empty or starts with a
    character that is not a space. *)
Lemma lstrip_head (s : string) :
  match Str.lstrip s with
  | EmptyString => True
  | String c _ => Str.isspace c = false
  end.
Proof.
  induction s as [|c s IH]; cbn; [exact I|].
  destruct (Str.isspace c) eqn:Hc; [exact IH|exact Hc].
Qed.

Lemma lstrip_of_rstrip (s : string) :
  match s with
  | EmptyString => True
  | String c _ => Str.isspace c = false
  end ->
  Str.lstrip (Str.rstrip s) = Str.rstrip s.
Proof.
  destruct s as [|c s]; cbn; [reflexivity|].
  intros Hc. destruct (Str.rstrip s) as [|c2 s2].
  - rewrite Hc. cbn. now rewrite Hc.
  - cbn. now rewrite Hc.
Qed.

Lemma strip_idempotent (s : string) : Str.strip (Str.strip s) = Str.strip s.
Proof.
  unfold Str.strip.
  rewrite (lstrip_of_rstrip (Str.lstrip s) (lstrip_head s)).
  apply rstrip_idempotent.
Qed.

(** X12.  Every bullet printed for an abstract is one of its pieces
    between full stops, stripped: it is not empty, it starts and ends
    with no white space, and it contains no full stop. *)
Theorem sentences_are_clean (abstract_text line : string) :
  In line (Cli.sentences abstract_text) ->
  line <> ""%string /\
  Str.strip line = line /\
  has_char "." line = false /\
  exists piece,
    In piece (Str.split "." abstract_text) /\ line = Str.strip piece.
Proof.
  unfold Cli.sentences. intros Hin. apply in_map_iff in Hin.
  destruct Hin as (piece & <- & Hin). apply filter_In in Hin.
  destruct Hin as [Hin Hne].
  split; [|split; [|split]].
  - intros Heq. rewrite Heq in Hne. discriminate.
  - apply strip_idempotent.
  - unfold Str.strip. apply rstrip_lacks, lstrip_lacks.
    pose proof (split_fields_lack_separator "." abstract_text) as Hall.
    rewrite Forall_forall in Hall. now apply Hall.
  - now exists piece.
Qed.

Lemma sentences_are_clean_loans :
  "Adds oversight"%string <> ""%string /\
  Str.strip "Adds oversight" = "Adds oversight"%string /\
  has_char "." "Adds oversight" = false /\
  exists piece,
    In piece (Str.split "." "Reforms student loans. Adds oversight.") /\
    "Adds oversight"%string = Str.strip piece.
Proof.
  apply (sentences_are_clean "Reforms student loans. Adds oversight."
           "Adds oversight").
  right. left. reflexivity.
Defined.

Lemma upper_keeps_underscore (c : ascii) :
  Ascii.eqb (upper_ascii c) "_" = Ascii.eqb c "_".
Proof. destruct c as [[] [] [] [] [] [] [] []]; reflexivity. Qed.

Lemma lower_keeps_underscore (c : ascii) :
  Ascii.eqb (lower_ascii c) "_" = Ascii.eqb c "_".
Proof. destruct c as [[] [] [] [] [] [] [] []]; reflexivity. Qed.

Lemma title_from_underscores (s : string) :
  forall b, has_char "_" (Str.title_from b s) = has_char "_" s.
Proof.
  induction s as [|c s IH]; intros b; cbn; [reflexivity|].
  rewrite IH. destruct b;
    [rewrite lower_keeps_underscore|rewrite upper_keeps_underscore];
    reflexivity.
Qed.

Lemma replace_removes_underscores (s : string) :
  has_char "_" (Str.replace "_" " " s) = false.
Proof.
  unfold Str.replace.
  induction s as [|c s IH]; cbn [smap has_char]; [reflexivity|].
  rewrite IH.
  destruct (Ascii.eqb c "_") eqn:Hc; [reflexivity|now rewrite Hc].
Qed.

(** X13.  The type printed for a bill exists exactly when its
    classification is a string, and it then contains no underscore.  For
    any other classification the loop raises [AttributeError]. *)
Theorem type_label_is_clean (classification : json) :
  match classification with
  | JStr s =>
      exists label,
        Cli.type_label classification = inr label /\
        has_char "_" label = false
  | _ => Cli.type_label classification = inl AttributeError
  end.
Proof.
  destruct classification as [| b | q | s | xs | kvs]; try reflexivity.
  eexists. split; [reflexivity|].
  unfold Str.title. rewrite title_from_underscores.
  apply replace_removes_underscores.
Qed.

(* ================================================================= *)
(** ** The interactive loop *)

Lemma printed_more_twice (st : state) (a b : list fstring) :
  printed_more (printed_more st a) b = printed_more st (a ++ b).
Proof. unfold printed_more. cbn. now rewrite app_assoc. Qed.

Lemma say_prints (line : string) (st : state) :
  Cli.say line st = (inr tt, printed_more st [[Lit line]]).
Proof. reflexivity. Qed.

Lemma run_print_prints (line : fstring) (st : state) :
  Cli.run (print line) st = (inr tt, printed_more st [line]).
Proof. reflexivity. Qed.

Lemma say_bullets_prints (lines : list string) :
  forall st,
    Cli.say_bullets lines st = (inr tt, printed_more st (map bullet lines)).
Proof.
  induction lines as [|line rest IH]; intros st; cbn [Cli.say_bullets map].
  - unfold Cli.retC, printed_more. rewrite app_nil_r. now destruct st.
  - unfold Cli.bindC. rewrite say_prints, IH, printed_more_twice.
    reflexivity.
Qed.

Lemma bind_say {B : Type} (line : string) (k : unit -> Cli.C B) st :
  Cli.bindC (Cli.say line) k st = k tt (printed_more st [[Lit line]]).
Proof. reflexivity. Qed.

Lemma bind_run_print {B : Type} (line : fstring) (k : unit -> Cli.C B) st :
  Cli.bindC (Cli.run (print line)) k st = k tt (printed_more st [line]).
Proof. reflexivity. Qed.

Lemma bind_say_bullets {B : Type} (lines : list string)
    (k : unit -> Cli.C B) st :
  Cli.bindC (Cli.say_bullets lines) k st
  = k tt (printed_more st (map bullet lines)).
Proof. unfold Cli.bindC. now rewrite say_bullets_prints. Qed.

Lemma bind_lift_value {A B : Type} (a : A) (k : A -> Cli.C B) st :
  Cli.bindC (Cli.liftC (inr a)) k st = k a st.
Proof. reflexivity. Qed.

Lemma bind_lift_raise {A B : Type} (e : exn) (k : A -> Cli.C B) st :
  Cli.bindC (Cli.liftC (inl e)) k st = (inl (Cli.Raised e), st).
Proof. reflexivity. Qed.

Ltac cli_step :=
  first [ rewrite bind_say | rewrite bind_run_print
        | rewrite bind_say_bullets | rewrite bind_lift_value
        | rewrite bind_lift_raise | rewrite say_prints
        | rewrite run_print_prints ];
  cbv beta.

(** X14.  A record whose classification and abstract are strings is
    printed without a crash and without a request: two lines for the
    identifier and the title, the type in title case, the status, the
    subjects, the heading of the abstract, one bullet for each sentence,
    the link and a rule. *)
Theorem print_bill_of_strings (bill : bill_record) (c a : string) (st : state) :
  classification bill = JStr c ->
  abstract bill = JStr a ->
  Cli.print_bill bill st = (inr tt, printed_more st (bill_block bill c a)).
Proof.
  intros Hc Ha. unfold Cli.print_bill.
  rewrite Hc, Ha. cbn [Cli.type_label Cli.abstract_lines].
  repeat cli_step. rewrite !printed_more_twice. reflexivity.
Qed.

Lemma print_bill_of_strings_loans :
  Cli.print_bill
    {| identifier := JStr "HB 1"; title := JStr "Student loans";
       status := JStr "Referred to committee";
       subjects := JStr "Education";
       abstract := JStr "Reforms student loans. Adds oversight.";
       openstates_url := JStr "No URL available.";
       classification := JStr "senate_bill" |} fresh
  = (inr tt,
     printed_more fresh
       [ [Lit "Bill ID: "; Val (JStr "HB 1")];
         [Lit "Title: "; Val (JStr "Student loans")];
         [Lit "Type: Senate Bill"];
         [Lit "Status: "; Val (JStr "Referred to committee")];
         [Lit "Subjects: "; Val (JStr "Education")];
         [Lit "Abstract:"];
         [Lit "  - Reforms student loans."];
         [Lit "  - Adds oversight."];
         [Lit "View Full Bill: "; Val (JStr "No URL available.")];
         [Lit "--------------------------------------------------"] ]).
Proof.
  exact (print_bill_of_strings
           {| identifier := JStr "HB 1"; title := JStr "Student loans";
              status := JStr "Referred to committee";
              subjects := JStr "Education";
              abstract := JStr "Reforms student loans. Adds oversight.";
              openstates_url := JStr "No URL available.";
              classification := JStr "senate_bill" |}
           "senate_bill" "Reforms student loans. Adds oversight." fresh
           eq_refl eq_refl).
Defined.

(** X15.  A detail response whose abstract is present but is not a
    string (a [null], for one) still yields a record, and printing that
    record crashes the loop with [AttributeError], and nothing is sent:
    after the first five lines of its block when the classification is a
    string or absent, and already at the type, after the first two lines,
    when the classification is not a string either. *)
Theorem print_bill_of_null_abstract
    (kvs : list (string * json)) (rec : bill_record) (v : json) (st : state) :
  format_bill (JObj kvs) = inr rec ->
  assoc "abstract" kvs = Some v ->
  (forall a, v <> JStr a) ->
  Cli.print_bill rec st
  = (inl (Cli.Raised AttributeError),
     printed_more st
       ([ [Lit "Bill ID: "; Val (identifier rec)];
          [Lit "Title: "; Val (title rec)] ]
        ++ match field kvs "classification" "N/A" with
           | JStr c =>
               [ [Lit ("Type: " ++ Str.title (Str.replace "_" " " c))];
                 [Lit "Status: "; Val (status rec)];
                 [Lit "Subjects: "; Val (subjects rec)] ]
           | _ => []
           end)).
Proof.
  intros Hfmt Hv Hnot.
  destruct (format_bill_plain_fields kvs rec Hfmt)
    as (_ & _ & Habs & _ & Hclass).
  unfold field in Habs. rewrite Hv in Habs.
  assert (Hraise : Cli.abstract_lines v = inl AttributeError)
    by (destruct v; try reflexivity; now destruct (Hnot s)).
  unfold Cli.print_bill. rewrite Hclass, Habs, Hraise.
  destruct (field kvs "classification" "N/A"); cbn [Cli.type_label];
    repeat cli_step; rewrite !printed_more_twice; reflexivity.
Qed.

Lemma print_bill_of_null_abstract_hb4 :
  exists rec,
    format_bill (JObj Cases.null_abstract_fields) = inr rec /\
    Cli.print_bill rec fresh
    = (inl (Cli.Raised AttributeError),
       printed_more fresh
         [ [Lit "Bill ID: "; Val (JStr "HB 4")];
           [Lit "Title: "; Val (JStr "N/A")];
           [Lit "Type: Bill"];
           [Lit "Status: "; Val (JStr "No recent action found.")];
           [Lit "Subjects: "; Val (JStr "N/A")] ]).
Proof.
  eexists. split; [reflexivity|].
  refine (print_bill_of_null_abstract Cases.null_abstract_fields _
            JNull fresh _ _ _).
  - reflexivity.
  - reflexivity.
  - discriminate.
Defined.

(** Printing a bill sends nothing, and can only crash with
    [AttributeError]. *)
Lemma print_bill_outcome (bill : bill_record) (st : state) :
  exists res st',
    Cli.print_bill bill st = (res, st') /\
    (res = inr tt \/ res = inl (Cli.Raised AttributeError)) /\
    sent st' = sent st.
Proof.
  unfold Cli.print_bill.
  destruct (classification bill); cbn [Cli.type_label];
    destruct (abstract bill); cbn [Cli.abstract_lines];
    repeat cli_step;
    (eexists _, _; split; [reflexivity|]; split; [auto|reflexivity]).
Qed.

Lemma print_bills_outcome (bills : list bill_record) :
  forall st,
    exists res st',
      Cli.print_bills bills st = (res, st') /\
      (res = inr tt \/ res = inl (Cli.Raised AttributeError)) /\
      sent st' = sent st.
Proof.
  induction bills as [|bill rest IH]; intros st; cbn [Cli.print_bills].
  - exists (inr tt), st. auto.
  - unfold Cli.bindC.
    destruct (print_bill_outcome bill st) as (res & st1 & -> & Hres & Hsent).
    destruct Hres as [-> | ->].
    + destruct (IH st1) as (res' & st2 & -> & Hres' & Hsent').
      exists res', st2. split; [reflexivity|]. split; [assumption|].
      congruence.
    + eauto 6.
Qed.

Section Repl.

Variable key : string.
Variable srv : server.

(** The call of the client from the loop never crashes, and sends the
    list search and at most 20 detail requests. *)
Lemma call_search_outcome (keyword_input jurisdiction_input : string) st :
  exists recs st',
    Cli.call_search key srv keyword_input jurisdiction_input st
    = (inr recs, st') /\
    (length (sent st') <= length (sent st) + 21)%nat.
Proof.
  unfold Cli.call_search, Cli.run.
  destruct (search_trace key srv keyword_input jurisdiction_input
              default_session default_limit
              {| sent := sent st; stdout := stdout st;
                 response := None; data := None |})
    as (recs & st' & ids & -> & Hsent & Hlen & _).
  exists recs, st'. split; [reflexivity|].
  rewrite Hsent. cbn [sent]. rewrite length_app. cbn [length].
  rewrite length_map. unfold default_limit in Hlen. lia.
Qed.

Lemma search_and_print_outcome (keyword_input jurisdiction_input : string) st :
  exists res st',
    Cli.search_and_print key srv keyword_input jurisdiction_input st
    = (res, st') /\
    (res = inr tt \/ res = inl (Cli.Raised AttributeError)) /\
    (length (sent st') <= length (sent st) + 21)%nat.
Proof.
  unfold Cli.search_and_print. cli_step. unfold Cli.bindC.
  destruct (call_search_outcome keyword_input jurisdiction_input
              (printed_more st [[Lit Cli.rule50]]))
    as (recs & st1 & -> & Hlen).
  cbn [printed_more sent] in Hlen.
  destruct recs as [|rec recs].
  - rewrite say_prints. eexists _, _. split; [reflexivity|].
    split; [auto|exact Hlen].
  - rewrite say_prints.
    destruct (print_bills_outcome (rec :: recs)
                (printed_more st1
                   [[Lit (Str.newline ++ "--- Search Results ---")]]))
      as (res & st2 & -> & Hres & Hsent).
    exists res, st2. split; [reflexivity|]. split; [assumption|].
    rewrite Hsent. exact Hlen.
Qed.

(** Every run of the loop: how it ends and how much it sends. *)
Lemma repl_outcome (n : nat) :
  forall inputs st,
    (length inputs <= n)%nat ->
    exists res st',
      Cli.repl key srv inputs st = (res, st') /\
      ((res = inr tt /\ existsb is_exit inputs = true) \/
       res = inl Cli.EOFError \/
       res = inl (Cli.Raised AttributeError)) /\
      (2 * length (sent st') <= 2 * length (sent st) + 21 * length inputs)%nat.
Proof.
  induction n as [|n IH]; intros inputs st Hn.
  - destruct inputs; [|cbn in Hn; lia].
    cbn [Cli.repl]. cli_step. eexists _, _. split; [reflexivity|].
    split; [auto|]. cbn. lia.
  - destruct inputs as [|line rest].
    { cbn [Cli.repl]. cli_step. eexists _, _. split; [reflexivity|].
      split; [auto|]. cbn. lia. }
    cbn [Cli.repl]. cli_step. cbv zeta.
    cbn [existsb]. unfold is_exit at 1.
    destruct (String.eqb (lower (Str.strip line)) "exit").
    { eexists _, _. split; [reflexivity|]. split; [auto|]. cbn. lia. }
    cbn [orb].
    destruct (negb (Str.nonempty (Str.strip line))).
    { cli_step.
      destruct (IH rest (printed_more
                           (printed_more st [[Lit Cli.prompt_keyword]])
                           [[Lit "Please enter a valid keyword."]]))
        as (res & st' & -> & Hres & Hlen); [cbn in Hn; lia|].
      exists res, st'. split; [reflexivity|]. split; [assumption|].
      cbn [printed_more sent length] in Hlen |- *. lia. }
    destruct rest as [|line2 rest2].
    { cli_step. eexists _, _. split; [reflexivity|]. split; [auto|].
      cbn. lia. }
    cli_step. cbv zeta. unfold Cli.bindC at 1.
    match goal with
    | |- context [Cli.search_and_print key srv ?k ?j ?s] =>
        destruct (search_and_print_outcome k j s)
          as (res1 & st1 & -> & Hres1 & Hlen1)
    end.
    cbn [printed_more sent] in Hlen1.
    destruct Hres1 as [-> | ->].
    + destruct (IH rest2 st1) as (res & st' & -> & Hres & Hlen);
        [cbn in Hn; lia|].
      exists res, st'. split; [reflexivity|]. split.
      * destruct Hres as [[-> Hex] | Hres]; [|auto].
        left. split; [reflexivity|]. cbn [existsb]. rewrite Hex.
        apply orb_true_r.
      * cbn [length] in *. lia.
    + eexists _, _. split; [reflexivity|]. split; [auto|].
      cbn [length]. lia.
Qed.

(** Blank keywords cost a prompt and a reminder each; the exit command
    ends the loop. *)
Lemma repl_blanks_then_exit (blanks : list string) (line : string)
    (rest : list string) :
  Forall (fun l => is_blank l = true) blanks ->
  is_exit line = true ->
  forall st,
    Cli.repl key srv (blanks ++ line :: rest) st
    = (inr tt,
       printed_more st
         (flat_map (fun _ => blank_round) blanks
          ++ [[Lit Cli.prompt_keyword]])).
Proof.
  intros Hblanks Hexit.
  induction Hblanks as [|blank blanks Hblank _ IH]; intros st;
    cbn [app Cli.repl flat_map]; cli_step; cbv zeta.
  - unfold is_exit in Hexit. rewrite Hexit. reflexivity.
  - unfold is_blank in Hblank.
    destruct (Str.strip blank) as [|c s] eqn:Hstrip; [|discriminate].
    cbn [lower smap String.eqb Str.nonempty negb]. cli_step.
    rewrite IH, !printed_more_twice. reflexivity.
Qed.

End Repl.

(** X16.  Blank keywords are answered by a reminder and the exit
    command, in any case and with white space around it, ends the
    program normally: nothing is sent, and the lines after it are not
    read. *)
Theorem blank_keywords_send_nothing
    key srv (blanks : list string) (line : string) (rest : list string) :
  Forall (fun l => is_blank l = true) blanks ->
  is_exit line = true ->
  Cli.main key srv (blanks ++ line :: rest) fresh
  = (inr tt,
     {| sent := [];
        stdout :=
          [ [Lit "Welcome to LexLearner CLI (OpenStates v3 API)"];
            [Lit "Making legal data accessible to everyone."] ]
          ++ flat_map (fun _ => blank_round) blanks
          ++ [ [Lit Cli.prompt_keyword];
               [Lit "Exiting LexLearner. Goodbye!"] ];
        response := None;
        data := None |}).
Proof.
  intros Hblanks Hexit. unfold Cli.main. do 2 cli_step.
  unfold Cli.bindC at 1.
  rewrite (repl_blanks_then_exit key srv blanks line rest Hblanks Hexit).
  rewrite say_prints, !printed_more_twice.
  unfold printed_more, fresh. cbn [sent stdout response data app].
  rewrite <- app_assoc. reflexivity.
Qed.

Lemma blank_keywords_send_nothing_twice :
  Cli.main "secret" Scenario.srv_echo ["   "; ""; " Exit "; "tax"] fresh
  = (inr tt,
     {| sent := [];
        stdout :=
          [ [Lit "Welcome to LexLearner CLI (OpenStates v3 API)"];
            [Lit "Making legal data accessible to everyone."];
            [Lit Cli.prompt_keyword];
            [Lit "Please enter a valid keyword."];
            [Lit Cli.prompt_keyword];
            [Lit "Please enter a valid keyword."];
            [Lit Cli.prompt_keyword];
            [Lit "Exiting LexLearner. Goodbye!"] ];
        response := None;
        data := None |}).
Proof.
  apply (blank_keywords_send_nothing "secret" Scenario.srv_echo
           ["   "; ""] " Exit " ["tax"]).
  - repeat constructor.
  - reflexivity.
Defined.

(** X17.  The program ends in one of three ways: normally, and then one
    of the lines it read was the exit command; with the [EOFError] of
    [input]; or with an [AttributeError] raised while a bill was printed.
    No exception of the client crashes it. *)
Theorem main_ends_by_exit_or_crash key srv (inputs : list string) (st : state) :
  exists res st',
    Cli.main key srv inputs st = (res, st') /\
    ((res = inr tt /\ existsb is_exit inputs = true) \/
     res = inl Cli.EOFError \/
     res = inl (Cli.Raised AttributeError)).
Proof.
  unfold Cli.main. do 2 cli_step. unfold Cli.bindC at 1.
  match goal with
  | |- context [Cli.repl key srv inputs ?s] =>
      destruct (repl_outcome key srv (length inputs) inputs s (le_n _))
        as (res & st1 & -> & Hres & _)
  end.
  destruct Hres as [[-> Hexit] | [-> | ->]].
  - rewrite say_prints. eauto 7.
  - eauto 7.
  - eauto 7.
Qed.

(** X18.  The program sends at most 21 requests for every two lines it
    reads: one list search and at most 20 detail requests per keyword and
    jurisdiction. *)
Theorem main_sends_at_most_21_per_search key srv (inputs : list string) :
  (2 * length (sent (snd (Cli.main key srv inputs fresh)))
   <= 21 * length inputs)%nat.
Proof.
  unfold Cli.main. do 2 cli_step. unfold Cli.bindC at 1.
  match goal with
  | |- context [Cli.repl key srv inputs ?s] =>
      destruct (repl_outcome key srv (length inputs) inputs s (le_n _))
        as (res & st1 & -> & _ & Hlen)
  end.
  cbn [printed_more sent fresh length] in Hlen.
  destruct res as [c|[]]; [exact Hlen|].
  rewrite say_prints. cbn [snd printed_more sent]. exact Hlen.
Qed.

(** X19.  A blank answer to the prompt for the jurisdiction is read as
    "ga": after a keyword that is not blank the program behaves on it
    exactly as if "ga" had been typed. *)
Theorem blank_jurisdiction_is_ga
    key srv (line line2 : string) (rest : list string) (st : state) :
  is_blank line = false ->
  is_blank line2 = true ->
  Cli.main key srv (line :: line2 :: rest) st
  = Cli.main key srv (line :: "ga"%string :: rest) st.
Proof.
  intros Hline Hblank. unfold is_blank in Hline, Hblank.
  destruct (Str.strip line2) as [|c s] eqn:Hstrip; [|discriminate].
  unfold Cli.main. cbn [Cli.repl]. rewrite Hline, Hstrip. reflexivity.
Qed.

Lemma blank_jurisdiction_is_ga_spaces :
  Cli.main "secret" Scenario.srv_echo ["tax"; "  "; "exit"] fresh
  = Cli.main "secret" Scenario.srv_echo ["tax"; "ga"; "exit"] fresh.
Proof.
  apply (blank_jurisdiction_is_ga "secret" Scenario.srv_echo
           "tax" "  " ["exit"] fresh).
  - reflexivity.
  - reflexivity.
Defined.

(* ================================================================= *)
(** ** More on the static catalogue and its front end *)

Lemma sapp_assoc (a b c : string) :
  ((a ++ b) ++ c = a ++ (b ++ c))%string.
Proof. induction a as [|x a IH]; cbn; [reflexivity|now rewrite IH]. Qed.

Lemma lower_app (a b : string) :
  lower (a ++ b) = (lower a ++ lower b)%string.
Proof.
  unfold lower. induction a as [|x a IH]; cbn; [reflexivity|now rewrite IH].
Qed.

(** A needle found in the lowered keyword is found in every lowered
    keyword that contains the keyword. *)
Lemma contains_wider (needle keyword pre post : string) :
  contains needle (lower keyword) = true ->
  contains needle (lower (pre ++ keyword ++ post)) = true.
Proof.
  intros H. apply contains_spec in H. destruct H as (a & b & Hk).
  apply contains_spec. rewrite !lower_app, Hk.
  exists (lower pre ++ a)%string, (b ++ lower post)%string.
  now rewrite !sapp_assoc.
Qed.

(** X20.  Text typed around a keyword never loses a match: when
    [search_bill] finds bills for a keyword it finds bills for every
    keyword that contains it, and when it finds the climate bills it
    finds the climate bills again. *)
Theorem wider_keyword_still_matches (keyword pre post : string) :
  Legacy.returned (Legacy.search_bill keyword) <> [] ->
  Legacy.returned (Legacy.search_bill (pre ++ keyword ++ post)) <> [] /\
  (Legacy.returned (Legacy.search_bill keyword) = Legacy.climate_bills ->
   Legacy.returned (Legacy.search_bill (pre ++ keyword ++ post))
   = Legacy.climate_bills).
Proof.
  unfold Legacy.search_bill, Legacy.climate_bills, Legacy.education_bills.
  cbn [Legacy.returned].
  destruct (contains "climate" (lower keyword)) eqn:Hc.
  - intros _. rewrite (contains_wider "climate" keyword pre post Hc).
    split; [discriminate|reflexivity].
  - destruct (contains "education" (lower keyword)) eqn:He;
      [|intros H; now destruct H].
    intros _. rewrite (contains_wider "education" keyword pre post He).
    split; [|discriminate].
    destruct (contains "climate" (lower (pre ++ keyword ++ post)));
      discriminate.
Qed.

Lemma wider_keyword_still_matches_education :
  Legacy.returned (Legacy.search_bill "higher Education reform") <> [] /\
  (Legacy.returned (Legacy.search_bill "Education") = Legacy.climate_bills ->
   Legacy.returned (Legacy.search_bill "higher Education reform")
   = Legacy.climate_bills).
Proof.
  apply (wider_keyword_still_matches "Education" "higher " " reform").
  discriminate.
Defined.

(** X21.  The front end of the catalogue, given a line, never ends with
    an end-of-input error, and writes the line that no bill was found
    exactly when the lowered line contains neither "climate" nor
    "education". *)
Theorem legacy_main_not_found_iff (user_input : string) (rest : list string) :
  LegacyCli.eof_error (LegacyCli.main (user_input :: rest)) = false /\
  (In ("There were no bills found for '" ++ user_input
       ++ "'. Please try again.")%string
      (LegacyCli.written (LegacyCli.main (user_input :: rest)))
   <->
   ~ Substring "climate" (lower user_input) /\
   ~ Substring "education" (lower user_input)).
Proof.
  split; [reflexivity|].
  unfold LegacyCli.main, Legacy.search_bill.
  cbn [LegacyCli.written Legacy.printed Legacy.returned].
  destruct (contains "climate" (lower user_input)) eqn:Hc.
  { split.
    - cbn. intros H.
      repeat (destruct H as [H|H]; [discriminate H|]). destruct H.
    - intros [Hno _]. apply contains_spec in Hc. now destruct Hno. }
  destruct (contains "education" (lower user_input)) eqn:He.
  { split.
    - cbn. intros H.
      repeat (destruct H as [H|H]; [discriminate H|]). destruct H.
    - intros [_ Hno]. apply contains_spec in He. now destruct Hno. }
  split.
  - intros _. split; intros H; apply contains_spec in H; congruence.
  - intros _. cbn. auto.
Qed.

(* ================================================================= *)
(** ** Failures, from the answers of the server to the empty result *)


(** The handler of an exception prints a line that carries it. *)
Lemma handlers_report (e : exn) (st : state) :
  (isinstance e CHTTPError = true -> response st <> None) ->
  (isinstance e CKeyError = true -> data st <> None) ->
  exists st',
    handlers e st = (inr [], st') /\
    sent st' = sent st /\
    exists line rest,
      stdout st' = stdout st ++ line :: rest /\
      is_error_line line = true /\
      In (Err e) line.
Proof.
  intros Hresp Hdata. unfold handlers, bind, print, ret, get_response, get_data.
  destruct e; cbn [isinstance] in *;
    try (eexists; split; [reflexivity|]; split; [reflexivity|];
         cbn [stdout]; rewrite <- ?app_assoc; cbn [app];
         do 2 eexists; split; [reflexivity|];
         split; [reflexivity|cbn; auto]).
  - destruct (response st) as [r|]; [|now destruct Hresp].
    destruct ((status_code r =? 401) || (status_code r =? 403))%Z;
      eexists; (split; [reflexivity|]); (split; [reflexivity|]);
      cbn [stdout]; rewrite <- ?app_assoc; cbn [app];
      do 2 eexists; (split; [reflexivity|]);
      (split; [reflexivity|cbn; auto]).
  - destruct (data st) as [d|]; [|now destruct Hdata].
    eexists; split; [reflexivity|]; split; [reflexivity|].
    cbn [stdout]. rewrite <- ?app_assoc. cbn [app].
    do 2 eexists; split; [reflexivity|]. split; [reflexivity|cbn; auto].
Qed.

Lemma error_status_does_not_pass (r : http_response) :
  400 <= status_code r < 600 ->
  ((400 <=? status_code r) && (status_code r <? 600))%Z = true.
Proof.
  intros H. apply andb_true_iff. split; [apply Z.leb_le|apply Z.ltb_lt]; lia.
Qed.

Section Failing.

Variable key : string.
Variable srv : server.

(** A failing detail fetch makes the turn of the loop raise. *)
Lemma fetch_bill_raises (bill : json) (st : state) (e : exn) :
  detail_failure srv key (sent st) bill e ->
  exists st1, fetch_bill key srv bill st = (inl e, st1).
Proof.
  unfold fetch_bill, bind, lift, requests_get, raise_for_status, json_of,
    ret, raise.
  intros [e0 Hid | id t Hid Hsrv | id r Hid Hsrv Hcode
          | id r Hid Hsrv Hpass Hbody | id r d e0 Hid Hsrv Hpass Hbody Hfmt];
    rewrite Hid; [eauto| | | |]; rewrite Hsrv; [eauto| | |].
  - rewrite (error_status_does_not_pass r Hcode). eauto.
  - unfold passes in Hpass. rewrite Hpass, Hbody. eauto.
  - unfold passes in Hpass. rewrite Hpass, Hbody, Hfmt. eauto.
Qed.

(** A detail fetch that is answered well by a response that formats
    makes the turn of the loop return the record. *)
Lemma fetch_bill_returns (bill id : json) (st : state) (rec : bill_record) :
  getitem bill "id" = inr id ->
  formats_to (srv (sent st) (detail_request key id)) rec ->
  fetch_bill key srv bill st
  = (inr rec,
     {| sent := sent st ++ [detail_request key id];
        stdout := stdout st;
        response := response st;
        data := data st |}).
Proof.
  intros Hid (r & d & Hsrv & Hpass & Hbody & Hfmt).
  unfold fetch_bill, bind, lift, requests_get, raise_for_status, json_of, ret.
  unfold passes in Hpass. rewrite Hid, Hsrv, Hpass, Hbody, Hfmt. reflexivity.
Qed.

(** The loop raises at the first bill whose detail fetch fails, whatever
    it had collected. *)
Lemma fetch_details_raises (limit : Z) (bill : json) (rest : list json)
    (e : exn) (done ids : list json) :
  Forall2 (fun b id => getitem b "id" = inr id) done ids ->
  forall recs i acc st,
    Forall2 formats_to
      (answers srv (sent st) (map (detail_request key) ids)) recs ->
    i + Z.of_nat (length done) < limit ->
    detail_failure srv key (sent st ++ map (detail_request key) ids) bill e ->
    exists st1,
      fetch_details key srv limit i (done ++ bill :: rest) acc st
      = (inl e, st1).
Proof.
  induction 1 as [|b id done ids Hid _ IH]; intros recs i acc st Hans Hlim Hfail.
  - cbn [app fetch_details]. cbn in Hlim, Hfail. rewrite app_nil_r in Hfail.
    assert (Hgo : (limit <=? i)%Z = false) by (apply Z.leb_gt; lia).
    rewrite Hgo. unfold bind.
    destruct (fetch_bill_raises bill st e Hfail) as (st1 & ->). eauto.
  - cbn [app fetch_details map answers] in *.
    inversion Hans as [|out rec outs recs' Hfmt Hans']; subst.
    assert (Hgo : (limit <=? i)%Z = false).
    { apply Z.leb_gt. cbn [length] in Hlim. lia. }
    rewrite Hgo. unfold bind.
    rewrite (fetch_bill_returns b id st rec Hid Hfmt).
    apply (IH recs').
    + exact Hans'.
    + cbn [length] in Hlim. lia.
    + cbn [sent]. rewrite <- app_assoc. exact Hfail.
Qed.

(** A failing search makes the [try] block raise the exception of the
    failure, with only the banner printed so far. *)
Lemma search_failure_raises keyword jurisdiction session limit e :
  search_failure srv key
    (search_request key keyword jurisdiction session limit) limit e ->
  exists st1,
    try_block key srv keyword jurisdiction session limit
      (entered keyword jurisdiction session) = (inl e, st1) /\
    stdout st1 = [msg_searching keyword jurisdiction session].
Proof.
  intros Hfail.
  unfold try_block, bind, requests_get, set_response, raise_for_status,
    json_of, set_data, lift, print, ret, raise.
  cbn [entered sent stdout response data app].
  destruct Hfail as [e Hlist | r d bills_found bills e Hsrv Hpass Hbody Hget
                                 Htruthy Hiter Hloop].
  - destruct Hlist as [t Hsrv | r Hsrv Hcode | r Hsrv Hpass Hbody
                       | r d e Hsrv Hpass Hbody Hget
                       | r d bf e Hsrv Hpass Hbody Hget Htruthy Hiter];
      rewrite Hsrv; cbn [status_code].
    + eauto.
    + rewrite (error_status_does_not_pass r Hcode). eauto.
    + unfold passes in Hpass. rewrite Hpass, Hbody. eauto.
    + unfold passes in Hpass. rewrite Hpass, Hbody, Hget. eauto.
    + unfold passes in Hpass.
      rewrite Hpass, Hbody, Hget, Htruthy, Hiter. eauto.
  - rewrite Hsrv. cbn [status_code]. unfold passes in Hpass.
    rewrite Hpass, Hbody, Hget, Htruthy, Hiter. cbn [negb].
    destruct Hloop as (done & bill & rest & ids & recs & -> & Hlim & Hids
                       & Hans & Hfail).
    match goal with
    | |- context [fetch_details key srv limit 0 _ [] ?s] =>
        destruct (fetch_details_raises limit bill rest e done ids Hids
                    recs 0 [] s Hans ltac:(lia) Hfail) as (st1 & Hrun)
    end.
    exists st1. split; [exact Hrun|].
    apply fetch_details_frame in Hrun. now destruct Hrun as (_ & _ & ->).
Qed.

(** A failing search ends in the empty list, after a handler has printed
    a line that carries the exception. *)
Lemma search_failure_is_reported keyword jurisdiction session limit e :
  search_failure srv key
    (search_request key keyword jurisdiction session limit) limit e ->
  exists st',
    search_bill_openstates key srv keyword jurisdiction session limit init
    = (inr [], st') /\
    exists line rest,
      stdout st' = msg_searching keyword jurisdiction session :: line :: rest /\
      is_error_line line = true /\
      In (Err e) line.
Proof.
  intros Hfail.
  destruct (search_failure_raises _ _ _ _ _ Hfail) as (st1 & Htry & Hout).
  rewrite search_bill_openstates_unfold, Htry.
  apply try_block_locals in Htry. destruct Htry as [Hr Hd].
  destruct (handlers_report e st1 Hr Hd)
    as (st' & -> & _ & line & rest & Hlog & Hline & Hin).
  exists st'. split; [reflexivity|]. exists line, rest.
  rewrite Hlog, Hout. auto.
Qed.

End Failing.

(** Conversely, the failures above are all there are: whatever the
    [try] block raises is the exception of one of them. *)
Lemma fetch_bill_raise_is_failure key srv (bill : json) (st st1 : state) e :
  fetch_bill key srv bill st = (inl e, st1) ->
  detail_failure srv key (sent st) bill e.
Proof.
  unfold fetch_bill, bind, lift, requests_get, raise_for_status, json_of,
    ret, raise.
  destruct (getitem bill "id") as [e0|id] eqn:Hid.
  { intros [= <- _]. now apply DetailNoId. }
  destruct (srv (sent st) (detail_request key id)) as [r|t] eqn:Hsrv.
  2:{ intros [= <- _]. now apply (DetailTransport srv key _ _ id t). }
  destruct ((400 <=? status_code r) && (status_code r <? 600))%Z eqn:Hcode.
  { intros [= <- _]. apply (DetailStatus srv key _ _ id r); auto.
    apply andb_true_iff in Hcode. destruct Hcode as [H1 H2].
    apply Z.leb_le in H1. apply Z.ltb_lt in H2. lia. }
  destruct (body r) as [d|] eqn:Hbody.
  2:{ intros [= <- _]. now apply (DetailNotJson srv key _ _ id r). }
  destruct (format_bill d) as [e0|rec] eqn:Hfmt; [|discriminate].
  intros [= <- _]. now apply (DetailNotFormatted srv key _ _ id r d).
Qed.

Lemma fetch_details_raise_is_failure key srv (bills : list json) :
  forall limit i acc st e st1,
    fetch_details key srv limit i bills acc st = (inl e, st1) ->
    exists done bill rest ids recs,
      bills = done ++ bill :: rest /\
      i + Z.of_nat (length done) < limit /\
      Forall2 (fun b id => getitem b "id" = inr id) done ids /\
      Forall2 formats_to
        (answers srv (sent st) (map (detail_request key) ids)) recs /\
      detail_failure srv key (sent st ++ map (detail_request key) ids) bill e.
Proof.
  induction bills as [|bill rest IH]; intros limit i acc st e st1;
    cbn [fetch_details]; [discriminate|].
  destruct (limit <=? i)%Z eqn:Hlim; [discriminate|].
  apply Z.leb_gt in Hlim. unfold bind.
  destruct (fetch_bill key srv bill st) as [[e0|r] st2] eqn:Hb.
  - intros [= <- <-]. apply fetch_bill_raise_is_failure in Hb.
    exists [], bill, rest, [], []. cbn. rewrite app_nil_r.
    split; [reflexivity|]. split; [lia|]. split; [constructor|].
    split; [constructor|exact Hb].
  - intros Hrest. apply IH in Hrest.
    destruct Hrest as (done & bill' & rest' & ids & recs & -> & Hlim' & Hids
                       & Hans & Hfail).
    apply fetch_bill_ok in Hb. destruct Hb as (id & Hid & Hsent & Hfmt).
    exists (bill :: done), bill', rest', (id :: ids), (r :: recs).
    cbn [app length map answers].
    split; [reflexivity|]. split; [lia|]. split; [now constructor|].
    rewrite Hsent in Hans, Hfail. rewrite <- app_assoc in Hfail.
    split; [now constructor|exact Hfail].
Qed.

Lemma every_raise_is_a_search_failure
    key srv keyword jurisdiction session limit e st1 :
  try_block key srv keyword jurisdiction session limit
    (entered keyword jurisdiction session) = (inl e, st1) ->
  search_failure srv key
    (search_request key keyword jurisdiction session limit) limit e.
Proof.
  unfold try_block, bind, requests_get, set_response, raise_for_status,
    json_of, set_data, lift, print, ret, raise.
  cbn [entered sent stdout response data app].
  destruct (srv [] _) as [r|t] eqn:Hsrv.
  2:{ intros [= <- _]. apply InListSearch. now apply ListTransport. }
  cbn [status_code].
  destruct ((400 <=? status_code r) && (status_code r <? 600))%Z eqn:Hcode.
  { intros [= <- _]. apply InListSearch. apply ListStatus; auto.
    apply andb_true_iff in Hcode. destruct Hcode as [H1 H2].
    apply Z.leb_le in H1. apply Z.ltb_lt in H2. lia. }
  destruct (body r) as [d|] eqn:Hbody.
  2:{ intros [= <- _]. apply InListSearch. now apply (ListNotJson srv _ r). }
  destruct (get d "results" (JArr [])) as [e0|bills_found] eqn:Hget.
  { intros [= <- _]. apply InListSearch.
    now apply (ListNotObject srv _ r d). }
  destruct (truthy bills_found) eqn:Htruthy; cbn [negb]; [|discriminate].
  destruct (iter bills_found) as [e0|bills] eqn:Hiter.
  { intros [= <- _]. apply InListSearch.
    now apply (ListNotIterable srv _ r d bills_found). }
  intros Hloop. apply fetch_details_raise_is_failure in Hloop.
  cbn [sent app] in Hloop.
  destruct Hloop as (done & bill & rest & ids & recs & Hsplit & Hlim & Hids
                     & Hans & Hfail).
  apply (InDetails srv key _ limit r d bills_found bills); auto.
  exists done, bill, rest, ids, recs.
  split; [assumption|]. split; [lia|]. auto.
Qed.

(** C3.  The list search is answered well and finds an array of bills;
    under the limit, the detail fetches of the first bills succeed and the
    detail fetch of the next bill fails: the bill has no [id], the
    transport fails, the status is 4xx or 5xx, the body is not JSON, or
    the body cannot be formatted.  Then the call returns the empty list,
    not the records of the fetches that had succeeded, after a handler has
    printed a line that carries the exception. *)
Theorem detail_failure_returns_nothing
    key srv keyword jurisdiction session limit r kvs
    (done : list json) (bill : json) (rest ids : list json)
    (recs : list bill_record) (e : exn) :
  srv [] (search_request key keyword jurisdiction session limit)
    = Responded r ->
  passes r ->
  body r = Some (JObj kvs) ->
  assoc "results" kvs = Some (JArr (done ++ bill :: rest)) ->
  Z.of_nat (length done) < limit ->
  Forall2 (fun b id => getitem b "id" = inr id) done ids ->
  Forall2 formats_to
    (answers srv [search_request key keyword jurisdiction session limit]
       (map (detail_request key) ids))
    recs ->
  detail_failure srv key
    (search_request key keyword jurisdiction session limit
     :: map (detail_request key) ids)
    bill e ->
  length recs = length done /\
  exists st',
    search_bill_openstates key srv keyword jurisdiction session limit init
    = (inr [], st') /\
    exists line rest',
      stdout st' = msg_searching keyword jurisdiction session :: line :: rest' /\
      is_error_line line = true /\
      In (Err e) line.
Proof.
  intros Hsrv Hpass Hbody Hres Hlim Hids Hans Hfail. split.
  - rewrite <- (Forall2_length Hans).
    assert (Hlen : forall hist rqs, length (answers srv hist rqs) = length rqs).
    { intros hist rqs. revert hist.
      induction rqs as [|rq rqs IH]; intros hist; cbn; [reflexivity|].
      now rewrite IH. }
    rewrite Hlen, length_map. symmetry. exact (Forall2_length Hids).
  - apply search_failure_is_reported.
    apply (InDetails srv key _ limit r (JObj kvs)
             (JArr (done ++ bill :: rest)) (done ++ bill :: rest) e);
      try assumption.
    + cbn [get]. now rewrite Hres.
    + now destruct done.
    + reflexivity.
    + exists done, bill, rest, ids, recs. auto.
Qed.

Lemma detail_failure_returns_nothing_after_a_success :
  length
    [ {| identifier := JStr "HB 1"; title := JStr "Student loans";
         status := JStr "Referred to committee";
         subjects := JStr "Education, Finance";
         abstract := JStr "Reforms student loans. Adds oversight.";
         openstates_url := JStr "No URL available.";
         classification := JStr "N/A" |} ]
  = length [Scenario.bill_ref "ocd-bill/1"] /\
  exists st',
    search_bill_openstates "secret" Scenario.srv_second_detail_500
      "loans" "ga" "current" 20 init = (inr [], st') /\
    exists line rest',
      stdout st' = msg_searching "loans" "ga" "current" :: line :: rest' /\
      is_error_line line = true /\
      In (Err (HTTPError 500)) line.
Proof.
  refine (detail_failure_returns_nothing "secret"
            Scenario.srv_second_detail_500 "loans" "ga" "current" 20
            {| status_code := 200; body := Some Scenario.two_bills |}
            [("results", JArr [Scenario.bill_ref "ocd-bill/1";
                               Scenario.bill_ref "ocd-bill/2"])]
            [Scenario.bill_ref "ocd-bill/1"] (Scenario.bill_ref "ocd-bill/2")
            [] [JStr "ocd-bill/1"] _ (HTTPError 500)
            eq_refl eq_refl eq_refl eq_refl _ _ _ _).
  - cbn. lia.
  - repeat constructor.
  - constructor; [|constructor].
    exists {| status_code := 200; body := Some Scenario.loans_detail |},
           Scenario.loans_detail.
    split; [reflexivity|]. split; [reflexivity|]. split; reflexivity.
  - apply (DetailStatus Scenario.srv_second_detail_500 "secret" _ _
             (JStr "ocd-bill/2") {| status_code := 500; body := None |}).
    + reflexivity.
    + reflexivity.
    + cbn. lia.
Defined.

(** C7.  Whatever the server does and whatever the arguments are, no
    exception reaches the caller of [search_bill_openstates].  And every
    failure is caught, reported and turned into the empty list: an error
    status 4xx or 5xx, a connection failure, a timeout or another failure
    of the transport, on the list search or on the detail fetch of a
    bill; a bill without [id]; a body that is not JSON, not an object, or
    that cannot be iterated or formatted.  In each case the call returns
    the empty list after a handler has printed, next to the banner, a
    line that carries the exception of the failure. *)
Theorem every_error_is_caught key srv keyword jurisdiction session limit :
  (forall e,
     fst (search_bill_openstates key srv keyword jurisdiction session limit
            init) <> inl e) /\
  (forall e,
     search_failure srv key
       (search_request key keyword jurisdiction session limit) limit e ->
     exists st',
       search_bill_openstates key srv keyword jurisdiction session limit init
       = (inr [], st') /\
       exists line rest,
         stdout st' = msg_searching keyword jurisdiction session
                      :: line :: rest /\
         is_error_line line = true /\
         In (Err e) line).
Proof.
  split.
  - intros e.
    destruct (search_never_raises key srv keyword jurisdiction session limit)
      as (recs & st' & ->).
    discriminate.
  - intros e. apply search_failure_is_reported.
Qed.

Lemma every_error_is_caught_detail_read_timeout :
  exists st',
    search_bill_openstates "secret" Cases.srv_detail_read_timeout
      "tax" "ga" "current" 20 init = (inr [], st') /\
    exists line rest,
      stdout st' = msg_searching "tax" "ga" "current" :: line :: rest /\
      is_error_line line = true /\
      In (Err ReadTimeout) line.
Proof.
  refine (proj2 (every_error_is_caught "secret" Cases.srv_detail_read_timeout
                   "tax" "ga" "current" 20) ReadTimeout _).
  apply (InDetails Cases.srv_detail_read_timeout "secret" _ 20
           {| status_code := 200; body := Some Scenario.two_bills |}
           Scenario.two_bills
           (JArr [Scenario.bill_ref "ocd-bill/1"; Scenario.bill_ref "ocd-bill/2"])
           [Scenario.bill_ref "ocd-bill/1"; Scenario.bill_ref "ocd-bill/2"]
           ReadTimeout);
    try reflexivity.
  exists [], (Scenario.bill_ref "ocd-bill/1"), [Scenario.bill_ref "ocd-bill/2"],
         [], [].
  split; [reflexivity|]. split; [cbn; lia|]. split; [constructor|].
  split; [constructor|].
  apply (DetailTransport Cases.srv_detail_read_timeout "secret" _ _
           (JStr "ocd-bill/1") ReadTimedOut); reflexivity.
Defined.
